(** * handy-functions: fetcher, retry and tryCatch

    A shallow embedding of [src/fetcher.ts], [src/retry.ts] and
    [src/try-catch.ts], and the properties of the retry/backoff state
    machine and of the request/response normalisation proved over it.

    Conventions of the embedding.
    - A JavaScript value is a [JsValue]; anything can be thrown, so errors
      are values too.
    - An awaited promise is its settled [Outcome]; asynchronous code is a
      function of the [World] (everything outside the call: the network, the
      clock, the random generator, the abort controller held by the caller)
      that returns the outcome and the world at the moment it settles.
    - The platform built-ins the code calls ([fetch], [JSON.parse],
      [JSON.stringify], [Math.random], the timer loop) are the fields of the
      [Platform] class; no theorem depends on how they are implemented.
    - Integral quantities (attempt counts, milliseconds, HTTP status) are [Z];
      the jitter arithmetic of [defaultDelay] is carried out in [Q], the IEEE
      rounding of the individual operations being abstracted. *)

From Stdlib Require Import ZArith QArith Qround Qpower Lqa String Ascii List Lia Bool.
From stdpp Require Import base option gmap strings pretty.
Import ListNotations.

Set Warnings "-register-all".

Local Open Scope string_scope.
Local Open Scope list_scope.
Local Open Scope Z_scope.

(** ** JavaScript values *)

Module Js.

(** The prototype an object was created with; [instanceof] and
    [Object.getPrototypeOf] only ever look at this. *)
Inductive Prototype : Type :=
| ObjectPrototype
| NullPrototype
| FormDataPrototype
| ErrorPrototype
| OtherPrototype (name : string).

Inductive JsValue : Type :=
| JsUndefined
| JsNull
| JsBoolean (b : bool)
| JsNumber (n : Z)
| JsString (s : string)
| JsArray (items : list JsValue)
| JsObject (proto : Prototype) (props : list (string * JsValue)).

(** A settled promise (or a [try] block): a value, or whatever was thrown. *)
Inductive Outcome (A : Type) : Type :=
| Fulfilled (value : A)
| Rejected (error : JsValue).

Arguments Fulfilled {A} value.
Arguments Rejected {A} error.

(** [new Error(message)] *)
Definition new_Error (message : string) : JsValue :=
  JsObject ErrorPrototype [("message", JsString message)].

(** [value === undefined || value === null], the test behind [??]. *)
Definition isNullish (value : JsValue) : bool :=
  match value with
  | JsUndefined | JsNull => true
  | _ => false
  end.

(** [value === null] *)
Definition isNull (value : JsValue) : bool :=
  match value with
  | JsNull => true
  | _ => false
  end.

(** [a ?? b] *)
Definition nullish_coalesce (a b : JsValue) : JsValue :=
  if isNullish a then b else a.

(** Property lookup on an own-property list, [None] standing for a missing
    key. *)
Fixpoint get_prop (key : string) (props : list (string * JsValue)) : option JsValue :=
  match props with
  | [] => None
  | (k, v) :: rest => if String.eqb k key then Some v else get_prop key rest
  end.

(** *** Strings *)

(** The double-quote character, for writing JSON text. *)
Definition dquote : string := String "034"%char EmptyString.

Definition quoted (s : string) : string := dquote +:+ s +:+ dquote.

(** White space as [String.prototype.trim] sees it, on the ASCII range:
    TAB, LF, VT, FF, CR and SPACE. *)
Definition isWhiteSpace (c : ascii) : bool :=
  let n := nat_of_ascii c in
  ((9 <=? n)%nat && (n <=? 13)%nat) || (n =? 32)%nat.

Fixpoint trimStart (s : string) : string :=
  match s with
  | EmptyString => EmptyString
  | String c rest => if isWhiteSpace c then trimStart rest else s
  end.

(** Drops trailing white space: a character is kept when it is not white
    space or when something is kept after it. *)
Fixpoint trimEnd (s : string) : string :=
  match s with
  | EmptyString => EmptyString
  | String c rest =>
      match trimEnd rest with
      | EmptyString => if isWhiteSpace c then EmptyString else String c EmptyString
      | kept => String c kept
      end
  end.

(** [s.trim()] *)
Definition trim (s : string) : string := trimEnd (trimStart s).

(** Truthiness of a string: non-empty. *)
Definition nonEmpty (s : string) : bool :=
  match s with
  | EmptyString => false
  | String _ _ => true
  end.

Definition lowerChar (c : ascii) : ascii :=
  let n := nat_of_ascii c in
  if ((65 <=? n)%nat && (n <=? 90)%nat) then ascii_of_nat (n + 32) else c.

(** [s.toLowerCase()], on the ASCII range. *)
Fixpoint toLowerCase (s : string) : string :=
  match s with
  | EmptyString => EmptyString
  | String c rest => String (lowerChar c) (toLowerCase rest)
  end.

(** [s.startsWith(p)] *)
Fixpoint startsWith (p s : string) : bool :=
  match p, s with
  | EmptyString, _ => true
  | String a p', String b s' => if Ascii.eqb a b then startsWith p' s' else false
  | String _ _, EmptyString => false
  end.

(** [s.includes(needle)] *)
Fixpoint includes (needle s : string) : bool :=
  startsWith needle s ||
  match s with
  | EmptyString => false
  | String _ rest => includes needle rest
  end.

End Js.

Export Js.

(** ** Headers *)

Module Headers.

(** A [Headers] object is a [gmap string string]: names are matched
    case-insensitively, so the map is keyed by the lower-cased name. *)

Definition get (h : gmap string string) (name : string) : option string :=
  h !! toLowerCase name.

Definition has (h : gmap string string) (name : string) : bool :=
  bool_decide (is_Some (h !! toLowerCase name)).

Definition set (h : gmap string string) (name value : string) : gmap string string :=
  <[toLowerCase name := value]> h.

Definition delete (h : gmap string string) (name : string) : gmap string string :=
  base.delete (toLowerCase name) h.

(** [headers.append(name, value)]: a repeated name joins the values. *)
Definition append (h : gmap string string) (name value : string) : gmap string string :=
  match h !! toLowerCase name with
  | Some old => <[toLowerCase name := old +:+ ", " +:+ value]> h
  | None => <[toLowerCase name := value]> h
  end.

(** [new Headers(init)], [init] being the caller's name/value pairs. *)
Definition make (init : list (string * string)) : gmap string string :=
  fold_left (fun h kv => append h (fst kv) (snd kv)) init ∅.

End Headers.

(** ** Asynchronous computations *)

Module Async.

(** An [async] computation run to the point where it settles. *)
Definition t (World A : Type) : Type := World -> Outcome A * World.

Definition ret {World A} (a : A) : t World A :=
  fun w => (Fulfilled a, w).

(** [throw e] *)
Definition throw {World A} (e : JsValue) : t World A :=
  fun w => (Rejected e, w).

(** [await c], then the continuation; a rejection skips it. *)
Definition bind {World A B} (c : t World A) (k : A -> t World B) : t World B :=
  fun w =>
    match c w with
    | (Fulfilled a, w') => k a w'
    | (Rejected e, w') => (Rejected e, w')
    end.

(** [try { c } catch (error) { handler(error) }], also [promise.catch]. *)
Definition catch {World A} (c : t World A) (handler : JsValue -> t World A) : t World A :=
  fun w =>
    match c w with
    | (Fulfilled a, w') => (Fulfilled a, w')
    | (Rejected e, w') => handler e w'
    end.

End Async.

Notation "'let_await' x ':=' c 'in' k" := (Async.bind c (fun x => k))
  (at level 10, x name, c at level 100, k at level 200).

(** ** The HTTP data model of [fetcher.ts] *)

Module Http.

(** [type HttpMethod] *)
Inductive HttpMethod : Type := GET | POST | PUT | PATCH | DELETE | HEAD.

Definition isHEAD (m : HttpMethod) : bool :=
  match m with
  | HEAD => true
  | _ => false
  end.

(** [type RequestOptions]: [method] may be left out, an absent [body] is
    [JsUndefined], [headers] are the caller's pairs and [restOptions] the
    transport options passed through untouched. *)
Record RequestOptions : Type := {
  method : option HttpMethod;
  body : JsValue;
  headers : list (string * string);
  restOptions : list (string * JsValue)
}.

(** [options || {}] *)
Definition noOptions : RequestOptions :=
  {| method := None; body := JsUndefined; headers := []; restOptions := [] |}.

(** The [RequestInit] handed to [fetch]. *)
Record RequestInit : Type := {
  init_method : HttpMethod;
  init_headers : gmap string string;
  init_body : option JsValue;
  init_rest : list (string * JsValue)
}.

(** What the code reads of a [Response]; [text] and [json] are the awaited
    results of the two body readers. *)
Record Response (World : Type) : Type := {
  ok : bool;
  status : Z;
  resp_headers : gmap string string;
  text : Async.t World string;
  json : Async.t World JsValue
}.

Arguments ok {World} _.
Arguments status {World} _.
Arguments resp_headers {World} _.
Arguments text {World} _.
Arguments json {World} _.

End Http.

Export Http.

(** ** The platform *)

Module Env.

(** [signal.aborted] and [signal.reason]: the signal belongs to the caller
    and is only read by this code, so both are read off the world. *)
Record AbortSignal (World : Type) : Type := {
  aborted : World -> bool;
  reason : World -> JsValue
}.

Arguments aborted {World} _ _.
Arguments reason {World} _ _.

(** The built-ins the three source files call. [timer_or_abort ms signal]
    runs the event loop from the moment [setTimeout(_, ms)] is armed and the
    [abort] listener is added to [signal] (when there is one) until the first
    of the two calls back. [Math_random] draws from [0, 1). *)
Class Platform (World : Type) : Type := {
  fetch : string -> RequestInit -> Async.t World (Response World);
  JSON_parse : string -> Outcome JsValue;
  JSON_stringify : JsValue -> string;
  Math_random : World -> Q * World;
  timer_or_abort : Z -> option (AbortSignal World) -> World -> World
}.

End Env.

Export Env.

(** ** fetcher.ts *)

Module Fetcher.

(** [isPlainObject]: a non-null object whose prototype is
    [Object.prototype] or [null]. Arrays are objects with another prototype. *)
Definition isPlainObject (value : JsValue) : bool :=
  match value with
  | JsObject ObjectPrototype _ => true
  | JsObject NullPrototype _ => true
  | _ => false
  end.

(** [Array.isArray] *)
Definition isArray (value : JsValue) : bool :=
  match value with
  | JsArray _ => true
  | _ => false
  end.

Definition shouldSerializeToJson (value : JsValue) : bool :=
  isPlainObject value || isArray value.

(** [body instanceof FormData] *)
Definition instanceofFormData (value : JsValue) : bool :=
  match value with
  | JsObject FormDataPrototype _ => true
  | _ => false
  end.

(** [extractErrorMessage]; [None] is the source's [null]. *)
Definition extractErrorMessage (value : JsValue) : option string :=
  match value with
  | JsString s => if nonEmpty (trim s) then Some s else None
  | JsObject _ props =>
      match get_prop "message" props with
      | Some (JsString message) =>
          if nonEmpty (trim message) then Some (trim message) else None
      | _ => None
      end
  | _ => None
  end.

(** [`HTTP error! Status: ${status}`] *)
Definition httpErrorMessage (status : Z) : string :=
  "HTTP error! Status: " +:+ pretty status.

Section WithPlatform.

Context {World : Type} `{Platform World}.

(** Lines 70-91 of [fetcher]: the request description built from the
    options, before any I/O. *)
Definition buildRequest (options : option RequestOptions) : RequestInit :=
  let o := default noOptions options in
  let method := default GET (Http.method o) in
  let body := Http.body o in
  let requestHeaders := Headers.make (Http.headers o) in
  if negb (isNullish body) then
    if instanceofFormData body then
      {| init_method := method;
         init_headers := Headers.delete requestHeaders "Content-Type";
         init_body := Some body;
         init_rest := restOptions o |}
    else if shouldSerializeToJson body then
      {| init_method := method;
         init_headers :=
           if negb (Headers.has requestHeaders "Content-Type")
           then Headers.set requestHeaders "Content-Type" "application/json"
           else requestHeaders;
         init_body := Some (JsString (JSON_stringify body));
         init_rest := restOptions o |}
    else
      {| init_method := method;
         init_headers := requestHeaders;
         init_body := Some body;
         init_rest := restOptions o |}
  else
    {| init_method := method;
       init_headers := requestHeaders;
       init_body := None;
       init_rest := restOptions o |}.

(** [response.json().then(extractErrorMessage).catch(() => null)
     || `HTTP error! Status: ${response.status}`] *)
Definition errorMessageOf (response : Response World) : Async.t World string :=
  let_await extracted := Async.catch
      (let_await data := json response in Async.ret (extractErrorMessage data))
      (fun _ => Async.ret None) in
  Async.ret
    match extracted with
    | Some message => if nonEmpty message then message else httpErrorMessage (status response)
    | None => httpErrorMessage (status response)
    end.

(** [responseHasNoContent] *)
Definition responseHasNoContent (method : HttpMethod) (response : Response World) : bool :=
  isHEAD method
  || Z.eqb (status response) 204
  || Z.eqb (status response) 205
  || Z.eqb (status response) 304
  || match Headers.get (resp_headers response) "content-length" with
     | Some length => String.eqb (trim length) "0"
     | None => false
     end.

(** [contentType && contentType.includes("json")], [contentType] being the
    lower-cased [content-type] header when there is one. *)
Definition isJsonFlavored (response : Response World) : bool :=
  match toLowerCase <$> Headers.get (resp_headers response) "content-type" with
  | Some contentType => nonEmpty contentType && includes "json" contentType
  | None => false
  end.

(** Lines 96-125 of [fetcher]: what is made of the response. *)
Definition readResponse (method : HttpMethod) (response : Response World) : Async.t World JsValue :=
  if negb (ok response) then
    let_await errorMessage := errorMessageOf response in
    Async.throw (new_Error errorMessage)
  else if responseHasNoContent method response then
    Async.ret JsUndefined
  else if isJsonFlavored response then
    let_await body := text response in
    if negb (nonEmpty (trim body)) then Async.ret JsUndefined
    else
      match JSON_parse body with
      | Fulfilled parsed => Async.ret parsed
      | Rejected syntaxError => Async.throw syntaxError
      end
  else
    let_await body := text response in
    Async.ret (JsString body).

(** [fetcher]; the outer [try]/[catch] rethrows what it catches. *)
Definition fetcher (url : string) (options : option RequestOptions) : Async.t World JsValue :=
  let requestInit := buildRequest options in
  Async.catch
    (let_await response := fetch url requestInit in
     readResponse (init_method requestInit) response)
    (fun error => Async.throw error).

End WithPlatform.

End Fetcher.

(** ** The verb helpers of fetcher.ts *)

Module Verbs.

(** [Omit<RequestOptions, "method" | "body">] *)
Record VerbOptions : Type := {
  verb_headers : list (string * string);
  verb_restOptions : list (string * JsValue)
}.

(** [{ method, body, ...options }]; a helper without a body argument leaves
    [body] undefined. *)
Definition withMethod (m : HttpMethod) (b : JsValue) (options : option VerbOptions)
  : RequestOptions :=
  {| method := Some m;
     body := b;
     headers := match options with Some o => verb_headers o | None => [] end;
     restOptions := match options with Some o => verb_restOptions o | None => [] end |}.

Section WithPlatform.

Context {World : Type} `{Platform World}.

Definition get (url : string) (options : option VerbOptions) : Async.t World JsValue :=
  Fetcher.fetcher url (Some (withMethod GET JsUndefined options)).

Definition post (url : string) (body : JsValue) (options : option VerbOptions)
  : Async.t World JsValue :=
  Fetcher.fetcher url (Some (withMethod POST body options)).

Definition put (url : string) (body : JsValue) (options : option VerbOptions)
  : Async.t World JsValue :=
  Fetcher.fetcher url (Some (withMethod PUT body options)).

Definition patch (url : string) (body : JsValue) (options : option VerbOptions)
  : Async.t World JsValue :=
  Fetcher.fetcher url (Some (withMethod PATCH body options)).

Definition del (url : string) (options : option VerbOptions) : Async.t World JsValue :=
  Fetcher.fetcher url (Some (withMethod DELETE JsUndefined options)).

End WithPlatform.

End Verbs.

(** ** retry.ts *)

Module Retry.

(** [delay?: number | DelayFunction]. A delay function may consult the
    world (the default one draws a random number); like the [retryable]
    predicate it is taken to return normally. *)
Inductive Delay (World : Type) : Type :=
| DelayNumber (ms : Z)
| DelayFunction (f : Z -> World -> Z * World).

Arguments DelayNumber {World} ms.
Arguments DelayFunction {World} f.

(** [type RetryOptions]; [None] is an option left out. *)
Record RetryOptions (World : Type) : Type := {
  attempts : option Z;
  delay : option (Delay World);
  signal : option (AbortSignal World);
  retryable : option (JsValue -> Z -> bool)
}.

Arguments attempts {World} _.
Arguments delay {World} _.
Arguments signal {World} _.
Arguments retryable {World} _.

(** [retryOptions = {}] *)
Definition noRetryOptions {World : Type} : RetryOptions World :=
  {| attempts := None; delay := None; signal := None; retryable := None |}.

(** [type RetryTarget], as [resolveTarget] tells the cases apart at run
    time: a function, a [URL] object (by its [toString()]), or any other
    value, among which the strings. *)
Inductive RetryTarget (World : Type) : Type :=
| TargetFunction (f : Async.t World JsValue)
| TargetURL (href : string)
| TargetValue (value : JsValue).

Arguments TargetFunction {World} f.
Arguments TargetURL {World} href.
Arguments TargetValue {World} value.

(** What an observer of one [retry] call sees: every call of
    [resolveTarget] with the way it settled, and every [wait] with the way
    it settled. *)
Inductive Event : Type :=
| Invoked (result : Outcome JsValue)
| Waited (ms : Z) (result : Outcome unit).

(** The world, and the events of the call so far (the events are
    bookkeeping of the model: no decision of the code reads them). *)
Record Run (World : Type) : Type := {
  world : World;
  trace : list Event
}.

Arguments world {World} _.
Arguments trace {World} _.

Definition start {World : Type} (w : World) : Run World :=
  {| world := w; trace := [] |}.

(** [Math.round]: the nearest integer, halves going up. *)
Definition Math_round (x : Q) : Z := Qfloor (x + (1 # 2)).

Definition isInvoked (e : Event) : bool :=
  match e with
  | Invoked _ => true
  | Waited _ _ => false
  end.

(** Number of times the target was invoked. *)
Definition invocations (events : list Event) : nat :=
  length (filter isInvoked events).

(** The error of the last invocation that failed, if any. *)
Definition lastInvocationError (events : list Event) : option JsValue :=
  match last (filter isInvoked events) with
  | Some (Invoked (Rejected e)) => Some e
  | _ => None
  end.

Section WithPlatform.

Context {World : Type} `{Platform World}.

(** [defaultDelay], in exact arithmetic: the value the doubles of the
    source approximate as long as [200 * 2 ** attempt] is finite (attempt
    below 1017), up to the rounding of the product before [Math.round]. *)
Definition defaultDelay (attempt : Z) (w : World) : Z * World :=
  let baseDelay := 200%Q in
  let (random, w') := Math_random w in
  let jitter := (random * (3 # 10) + (85 # 100))%Q in
  (Math_round (baseDelay * Qpower 2 attempt * jitter)%Q, w').

(** [signal?.aborted] *)
Definition signalAborted (signal : option (AbortSignal World)) (w : World) : bool :=
  match signal with
  | Some s => aborted s w
  | None => false
  end.

(** [signal?.reason] *)
Definition signalReason (signal : option (AbortSignal World)) (w : World) : JsValue :=
  match signal with
  | Some s => reason s w
  | None => JsUndefined
  end.

(** [wait]: rejects at once when the signal is already aborted; otherwise
    arms the timer and the [abort] listener and settles with whichever comes
    first, which [signal.aborted] tells at that moment. *)
Definition wait (ms : Z) (signal : option (AbortSignal World)) : Async.t World unit :=
  fun w =>
    if signalAborted signal w then (Rejected (signalReason signal w), w)
    else
      let w' := timer_or_abort ms signal w in
      if signalAborted signal w' then (Rejected (signalReason signal w'), w')
      else (Fulfilled tt, w').

Definition resolveTarget (target : RetryTarget World) (requestOptions : option RequestOptions)
  : Async.t World JsValue :=
  match target with
  | TargetFunction f => f
  | TargetURL href => Fetcher.fetcher href requestOptions
  | TargetValue (JsString url) => Fetcher.fetcher url requestOptions
  | TargetValue value => Async.ret value
  end.

(** [resolveTarget], observed. *)
Definition invoke (target : RetryTarget World) (requestOptions : option RequestOptions)
  : Async.t (Run World) JsValue :=
  fun r =>
    let (result, w') := resolveTarget target requestOptions (world r) in
    (result, {| world := w'; trace := trace r ++ [Invoked result] |}).

(** [typeof delay === "function" ? delay(attempt) : Math.max(delay, 0)] *)
Definition delayFor (delay : Delay World) (attempt : Z) (r : Run World) : Z * Run World :=
  match delay with
  | DelayFunction f =>
      let (ms, w') := f attempt (world r) in
      (ms, {| world := w'; trace := trace r |})
  | DelayNumber ms => (Z.max ms 0, r)
  end.

(** [wait], observed. *)
Definition await_wait (ms : Z) (signal : option (AbortSignal World)) : Async.t (Run World) unit :=
  fun r =>
    let (result, w') := wait ms signal (world r) in
    (result, {| world := w'; trace := trace r ++ [Waited ms result] |}).

(** The [while] loop of [retry], from the top of an iteration with the
    given [attempt] and [lastError]. [fuel] bounds the number of iterations;
    [None] is a loop cut short by it. *)
Fixpoint retryLoop (target : RetryTarget World) (requestOptions : option RequestOptions)
  (attempts : Z) (delay : Delay World) (signal : option (AbortSignal World))
  (retryable : JsValue -> Z -> bool)
  (fuel : nat) (attempt : Z) (lastError : JsValue) (r : Run World)
  : option (Outcome JsValue * Run World) :=
  match fuel with
  | O => None
  | S fuel' =>
      if attempt <? attempts then
        match invoke target requestOptions r with
        | (Fulfilled value, r1) => Some (Fulfilled value, r1)
        | (Rejected error, r1) =>
            if signalAborted signal (world r1) then
              Some (Rejected (nullish_coalesce (signalReason signal (world r1)) error), r1)
            else
              let lastError := error in
              let attempt := attempt + 1 in
              let shouldRetry := (attempt <? attempts) && retryable error attempt in
              if negb shouldRetry then Some (Rejected error, r1)
              else
                let (delayMs, r2) := delayFor delay attempt r1 in
                match await_wait delayMs signal r2 with
                | (Fulfilled _, r3) =>
                    retryLoop target requestOptions attempts delay signal retryable
                      fuel' attempt lastError r3
                | (Rejected cancelled, r3) => Some (Rejected cancelled, r3)
                end
        end
      else Some (Rejected lastError, r)
  end.

(** The destructuring of [retryOptions], with its defaults. *)
Definition attemptsOf (retryOptions : RetryOptions World) : Z :=
  default 3 (Retry.attempts retryOptions).

Definition delayOf (retryOptions : RetryOptions World) : Delay World :=
  default (DelayFunction defaultDelay) (Retry.delay retryOptions).

Definition retryableOf (retryOptions : RetryOptions World) : JsValue -> Z -> bool :=
  default (fun _ _ => true) (Retry.retryable retryOptions).

(** [retry]. The loop body runs at most [attempts] times, and the loop test
    once more. *)
Definition retry (target : RetryTarget World) (retryOptions : RetryOptions World)
  (requestOptions : option RequestOptions) (w : World)
  : option (Outcome JsValue * Run World) :=
  let attempts := attemptsOf retryOptions in
  let delay := delayOf retryOptions in
  let signal := Retry.signal retryOptions in
  let retryable := retryableOf retryOptions in
  if attempts <? 1 then
    Some (Rejected (new_Error "retry: attempts must be at least 1"), start w)
  else
    retryLoop target requestOptions attempts delay signal retryable
      (S (Z.to_nat attempts)) 0 JsUndefined (start w).

(** The states in which a call of [retry] started in the world [w] stands at
    the top of its loop: at the start, and after each iteration that went
    through a failed invocation, a retry decision and a completed delay. *)
Inductive atLoopTop (target : RetryTarget World) (retryOptions : RetryOptions World)
  (requestOptions : option RequestOptions) (w : World)
  : Z -> JsValue -> Run World -> Prop :=
| atLoopTop_start :
    atLoopTop target retryOptions requestOptions w 0 JsUndefined (start w)
| atLoopTop_again attempt lastError r error r1 delayMs r2 r3 :
    atLoopTop target retryOptions requestOptions w attempt lastError r ->
    attempt < attemptsOf retryOptions ->
    invoke target requestOptions r = (Rejected error, r1) ->
    signalAborted (Retry.signal retryOptions) (world r1) = false ->
    (attempt + 1 <? attemptsOf retryOptions) && retryableOf retryOptions error (attempt + 1) = true ->
    delayFor (delayOf retryOptions) (attempt + 1) r1 = (delayMs, r2) ->
    await_wait delayMs (Retry.signal retryOptions) r2 = (Fulfilled tt, r3) ->
    atLoopTop target retryOptions requestOptions w (attempt + 1) error r3.

End WithPlatform.

End Retry.

(** ** Reading the trace of a call *)

Module Observed.

(** The durations the call asked [wait] for, in order. *)
Fixpoint waitDurations (events : list Retry.Event) : list Z :=
  match events with
  | [] => []
  | Retry.Waited ms _ :: rest => ms :: waitDurations rest
  | Retry.Invoked _ :: rest => waitDurations rest
  end.

(** A trace in which nothing overlaps and nothing is skipped: failed
    invocations and completed delays alternate, and the trace ends with an
    invocation (of either outcome) or with a failed invocation and the
    delay that was cancelled after it. *)
Fixpoint sequential (events : list Retry.Event) : bool :=
  match events with
  | [Retry.Invoked _] => true
  | [Retry.Invoked (Rejected _); Retry.Waited _ (Rejected _)] => true
  | Retry.Invoked (Rejected _) :: Retry.Waited _ (Fulfilled _) :: rest => sequential rest
  | _ => false
  end.

End Observed.

(** ** try-catch.ts *)

Module TryCatch.

(** [type TryCatchInput], as [resolveInput] tells the cases apart at run
    time: a thunk, a [URL] object, or any other value; a promise is a value
    that [await] has to wait for. *)
Inductive TryCatchInput (World : Type) : Type :=
| InputFunction (f : Async.t World JsValue)
| InputURL (href : string)
| InputPromise (p : Async.t World JsValue)
| InputValue (value : JsValue).

Arguments InputFunction {World} f.
Arguments InputURL {World} href.
Arguments InputPromise {World} p.
Arguments InputValue {World} value.

Section WithPlatform.

Context {World : Type} `{Platform World}.

(** [await resolveInput(input, requestOptions)] *)
Definition resolveInput (input : TryCatchInput World) (requestOptions : option RequestOptions)
  : Async.t World JsValue :=
  match input with
  | InputFunction f => f
  | InputURL href => Fetcher.fetcher href requestOptions
  | InputValue (JsString url) => Fetcher.fetcher url requestOptions
  | InputPromise p => p
  | InputValue value => Async.ret value
  end.

(** [tryCatch]: the pair is the two-element tuple. *)
Definition tryCatch (input : TryCatchInput World) (requestOptions : option RequestOptions)
  : Async.t World (JsValue * JsValue) :=
  Async.catch
    (let_await data := resolveInput input requestOptions in
     Async.ret (data, JsNull))
    (fun error => Async.ret (JsNull, error)).

End WithPlatform.

End TryCatch.

(** ** A concrete platform

    A small world in the manner of the mocks of the test suite: a clock, a
    call counter for mocked targets, at most one pending [abort(reason)] of
    the caller's controller, the next value of [Math.random], and a server
    with four canned answers. *)

Module Testbed.

Record World : Type := {
  now : Z;
  calls : nat;
  abortAt : option (Z * JsValue);
  nextRandom : Q
}.

Definition quiet : World :=
  {| now := 0; calls := 0; abortAt := None; nextRandom := 0 |}.

(** The signal of the controller whose [abort(reason)] happens at the time
    recorded in [abortAt]. *)
Definition controllerSignal : AbortSignal World :=
  {| aborted := fun w =>
       match abortAt w with
       | Some (t, _) => t <=? now w
       | None => false
       end;
     reason := fun w =>
       match abortAt w with
       | Some (t, r) => if t <=? now w then r else JsUndefined
       | None => JsUndefined
       end |}.

(** *** JSON text, for the fragment without escapes, fractions and exponents *)

Definition isJsonSpace (c : ascii) : bool :=
  let n := nat_of_ascii c in
  (n =? 32)%nat || (n =? 9)%nat || (n =? 10)%nat || (n =? 13)%nat.

Fixpoint skipSpace (s : string) : string :=
  match s with
  | String c rest => if isJsonSpace c then skipSpace rest else s
  | EmptyString => EmptyString
  end.

Definition digitOf (c : ascii) : option Z :=
  let n := nat_of_ascii c in
  if ((48 <=? n)%nat && (n <=? 57)%nat) then Some (Z.of_nat n - 48) else None.

Fixpoint readDigits (acc : Z) (s : string) : Z * string :=
  match s with
  | String c rest =>
      match digitOf c with
      | Some d => readDigits (10 * acc + d) rest
      | None => (acc, s)
      end
  | EmptyString => (acc, EmptyString)
  end.

(** The characters up to the closing quote; a backslash is outside the
    fragment. *)
Fixpoint readString (s : string) : option (string * string) :=
  match s with
  | EmptyString => None
  | String c rest =>
      if Ascii.eqb c "034"%char then Some (EmptyString, rest)
      else if Ascii.eqb c "092"%char then None
      else
        match readString rest with
        | Some (chars, after) => Some (String c chars, after)
        | None => None
        end
  end.

Definition dropChars (n : nat) (s : string) : string :=
  String.substring n (String.length s - n) s.

Fixpoint parseValue (fuel : nat) (s : string) : option (JsValue * string) :=
  match fuel with
  | O => None
  | S fuel' =>
      let elements :=
        fix elements (n : nat) (acc : list JsValue) (s : string) : option (JsValue * string) :=
          match n with
          | O => None
          | S n' =>
              match parseValue fuel' s with
              | Some (v, rest) =>
                  match skipSpace rest with
                  | String c rest' =>
                      if Ascii.eqb c ","%char then elements n' (acc ++ [v]) rest'
                      else if Ascii.eqb c "]"%char then Some (JsArray (acc ++ [v]), rest')
                      else None
                  | EmptyString => None
                  end
              | None => None
              end
          end in
      let members :=
        fix members (n : nat) (acc : list (string * JsValue)) (s : string) : option (JsValue * string) :=
          match n with
          | O => None
          | S n' =>
              match skipSpace s with
              | String q afterQuote =>
                  if Ascii.eqb q "034"%char then
                    match readString afterQuote with
                    | Some (key, afterKey) =>
                        match skipSpace afterKey with
                        | String colon afterColon =>
                            if Ascii.eqb colon ":"%char then
                              match parseValue fuel' afterColon with
                              | Some (v, rest) =>
                                  match skipSpace rest with
                                  | String c rest' =>
                                      if Ascii.eqb c ","%char then members n' (acc ++ [(key, v)]) rest'
                                      else if Ascii.eqb c "}"%char
                                      then Some (JsObject ObjectPrototype (acc ++ [(key, v)]), rest')
                                      else None
                                  | EmptyString => None
                                  end
                              | None => None
                              end
                            else None
                        | EmptyString => None
                        end
                    | None => None
                    end
                  else None
              | EmptyString => None
              end
          end in
      match skipSpace s with
      | EmptyString => None
      | String c rest =>
          if Ascii.eqb c "{"%char then
            match skipSpace rest with
            | String c' rest' =>
                if Ascii.eqb c' "}"%char then Some (JsObject ObjectPrototype [], rest')
                else members fuel' [] rest
            | EmptyString => None
            end
          else if Ascii.eqb c "["%char then
            match skipSpace rest with
            | String c' rest' =>
                if Ascii.eqb c' "]"%char then Some (JsArray [], rest')
                else elements fuel' [] rest
            | EmptyString => None
            end
          else if Ascii.eqb c "034"%char then
            match readString rest with
            | Some (chars, after) => Some (JsString chars, after)
            | None => None
            end
          else if Ascii.eqb c "-"%char then
            match rest with
            | String d _ =>
                match digitOf d with
                | Some _ => let (n, after) := readDigits 0 rest in Some (JsNumber (- n), after)
                | None => None
                end
            | EmptyString => None
            end
          else if startsWith "true" (String c rest) then Some (JsBoolean true, dropChars 3 rest)
          else if startsWith "false" (String c rest) then Some (JsBoolean false, dropChars 4 rest)
          else if startsWith "null" (String c rest) then Some (JsNull, dropChars 3 rest)
          else
            match digitOf c with
            | Some _ => let (n, after) := readDigits 0 (String c rest) in Some (JsNumber n, after)
            | None => None
            end
      end
  end.

Definition syntaxError : JsValue :=
  JsObject (OtherPrototype "SyntaxError") [("message", JsString "Unexpected token in JSON")].

Definition JSON_parse (source : string) : Outcome JsValue :=
  match parseValue (S (String.length source)) source with
  | Some (value, rest) =>
      if nonEmpty (skipSpace rest) then Rejected syntaxError else Fulfilled value
  | None => Rejected syntaxError
  end.

(** Properties whose value is [undefined] are left out of an object and
    stand as [null] in an array; strings are written without escapes. *)
Fixpoint JSON_stringify (value : JsValue) : string :=
  match value with
  | JsUndefined => "null"
  | JsNull => "null"
  | JsBoolean true => "true"
  | JsBoolean false => "false"
  | JsNumber n => pretty n
  | JsString s => quoted s
  | JsArray items =>
      "[" +:+
      (fix elements (l : list JsValue) : string :=
         match l with
         | [] => EmptyString
         | [v] => JSON_stringify v
         | v :: rest => JSON_stringify v +:+ "," +:+ elements rest
         end) items
      +:+ "]"
  | JsObject _ props =>
      "{" +:+
      (fix members (first : bool) (l : list (string * JsValue)) : string :=
         match l with
         | [] => EmptyString
         | (_, JsUndefined) :: rest => members first rest
         | (k, v) :: rest =>
             (if first then EmptyString else ",")
             +:+ quoted k +:+ ":" +:+ JSON_stringify v +:+ members false rest
         end) true props
      +:+ "}"
  end.

(** *** The server and the timers *)

(** A response carrying [bodyText]: [json()] is [JSON.parse] of the text. *)
Definition respond (status : Z) (headers : list (string * string)) (bodyText : string)
  : Response World :=
  {| ok := (200 <=? status) && (status <=? 299);
     status := status;
     resp_headers := Headers.make headers;
     text := Async.ret bodyText;
     json := fun w => (JSON_parse bodyText, w) |}.

Definition helloWorld : string :=
  "{" +:+ quoted "hello" +:+ ":" +:+ quoted "world" +:+ "}".

Definition messageBoom : string :=
  "{" +:+ quoted "message" +:+ ":" +:+ quoted "Boom" +:+ "}".

Definition jsonHeaders : list (string * string) :=
  [("Content-Type", "application/json")].

Definition networkError : JsValue :=
  JsObject (OtherPrototype "TypeError") [("message", JsString "fetch failed")].

Definition fetch (url : string) (init : RequestInit) : Async.t World (Response World) :=
  if String.eqb url "https://example.com" then Async.ret (respond 200 jsonHeaders helloWorld)
  else if String.eqb url "https://example.com/blank" then Async.ret (respond 200 jsonHeaders "  ")
  else if String.eqb url "https://example.com/empty" then Async.ret (respond 204 [] EmptyString)
  else if String.eqb url "https://example.com/error" then Async.ret (respond 500 jsonHeaders messageBoom)
  else Async.throw networkError.

(** The clock moves to the abort when one is pending on a listened signal
    and falls within the delay, and by the whole delay otherwise. *)
Definition timer_or_abort (ms : Z) (signal : option (AbortSignal World)) (w : World) : World :=
  let fired := now w + Z.max ms 0 in
  let settled :=
    match signal, abortAt w with
    | Some _, Some (t, _) => if t <=? fired then Z.max (now w) t else fired
    | _, _ => fired
    end in
  {| now := settled; calls := calls w; abortAt := abortAt w; nextRandom := nextRandom w |}.

Definition Math_random (w : World) : Q * World := (nextRandom w, w).

#[global] Instance platform : Platform World :=
  {| Env.fetch := fetch;
     Env.JSON_parse := JSON_parse;
     Env.JSON_stringify := JSON_stringify;
     Env.Math_random := Math_random;
     Env.timer_or_abort := timer_or_abort |}.

(** *** Mocked targets *)

Definition called (w : World) : World :=
  {| now := now w; calls := S (calls w); abortAt := abortAt w; nextRandom := nextRandom w |}.

(** The error of the [n]-th call. *)
Definition failure (n : nat) : JsValue := new_Error ("fail " +:+ pretty n).

(** A target that rejects on every call, each time with a fresh error. *)
Definition alwaysFails : Async.t World JsValue :=
  fun w => (Rejected (failure (S (calls w))), called w).

(** A target that rejects [failures] times and resolves to ["ok"] from then
    on. *)
Definition failsThenOk (failures : nat) : Async.t World JsValue :=
  fun w =>
    if (calls w <? failures)%nat then (Rejected (failure (S (calls w))), called w)
    else (Fulfilled (JsString "ok"), called w).

End Testbed.

(** ** Other servers

    The concrete world of [Testbed] under a transport of one's choice. *)

Module Lab.

Definition platformWith
    (transport : string -> RequestInit -> Async.t Testbed.World (Response Testbed.World))
  : Platform Testbed.World :=
  {| Env.fetch := transport;
     Env.JSON_parse := Testbed.JSON_parse;
     Env.JSON_stringify := Testbed.JSON_stringify;
     Env.Math_random := Testbed.Math_random;
     Env.timer_or_abort := Testbed.timer_or_abort |}.

(** A server that gives the same answer to every request. *)
Definition always (status : Z) (headers : list (string * string)) (bodyText : string)
  : string -> RequestInit -> Async.t Testbed.World (Response Testbed.World) :=
  fun _ _ => Async.ret (Testbed.respond status headers bodyText).

(** A transport on which every request fails. *)
Definition offline : string -> RequestInit -> Async.t Testbed.World (Response Testbed.World) :=
  fun _ _ => Async.throw Testbed.networkError.

(** A server that counts the requests it receives (in [Testbed.calls]) and
    gives the same answer to each. *)
Definition counting (status : Z) (headers : list (string * string)) (bodyText : string)
  : string -> RequestInit -> Async.t Testbed.World (Response Testbed.World) :=
  fun _ _ w => (Fulfilled (Testbed.respond status headers bodyText), Testbed.called w).

(** The platform of [Testbed] with a random generator stuck at one value. *)
Definition withRandom (draw : Q) : Platform Testbed.World :=
  {| Env.fetch := Testbed.fetch;
     Env.JSON_parse := Testbed.JSON_parse;
     Env.JSON_stringify := Testbed.JSON_stringify;
     Env.Math_random := fun w => (draw, w);
     Env.timer_or_abort := Testbed.timer_or_abort |}.

End Lab.

(** * Properties *)

(** ** The retry loop *)

Section RetryFacts.

Context {World : Type} `{Platform World}.

Implicit Types (target : Retry.RetryTarget World) (signal : option (AbortSignal World)).
Implicit Types (delay : Retry.Delay World) (r : Retry.Run World).

Lemma invocations_app (a b : list Retry.Event) :
  Retry.invocations (a ++ b) = (Retry.invocations a + Retry.invocations b)%nat.
Proof.
  unfold Retry.invocations. now rewrite filter_app, length_app.
Qed.

Lemma lastInvocationError_snoc (a : list Retry.Event) (e : JsValue) :
  Retry.lastInvocationError (a ++ [Retry.Invoked (Rejected e)]) = Some e.
Proof.
  unfold Retry.lastInvocationError.
  rewrite filter_app.
  change (filter _ [Retry.Invoked (Rejected e)]) with [Retry.Invoked (Rejected e)].
  now rewrite last_snoc.
Qed.

Lemma lastInvocationError_app (a b : list Retry.Event) (e : JsValue) :
  Retry.lastInvocationError b = Some e ->
  Retry.lastInvocationError (a ++ b) = Some e.
Proof.
  unfold Retry.lastInvocationError. rewrite filter_app, last_app.
  now destruct (last (filter _ b)).
Qed.

(** The delay computation leaves the trace alone. *)
Lemma delayFor_trace delay attempt r :
  Retry.trace (snd (Retry.delayFor delay attempt r)) = Retry.trace r.
Proof.
  destruct delay as [ms | f]; simpl; [reflexivity |].
  now destruct (f attempt (Retry.world r)).
Qed.

(** A signal that is never seen aborted lets every delay run to its end. *)
Lemma await_wait_not_aborted ms signal r :
  (forall w, Retry.signalAborted signal w = false) ->
  Retry.await_wait ms signal r =
    (Fulfilled tt,
     {| Retry.world := timer_or_abort ms signal (Retry.world r);
        Retry.trace := Retry.trace r ++ [Retry.Waited ms (Fulfilled tt)] |}).
Proof.
  intros Hquiet. unfold Retry.await_wait, Retry.wait.
  now rewrite !Hquiet.
Qed.

(** One iteration that ends the call because the signal is aborted when the
    failure is caught. *)
Lemma retryLoop_caught_aborted target requestOptions attempts delay signal retryable
    fuel attempt lastError r error w1 :
  attempt < attempts ->
  Retry.resolveTarget target requestOptions (Retry.world r) = (Rejected error, w1) ->
  Retry.signalAborted signal w1 = true ->
  Retry.retryLoop target requestOptions attempts delay signal retryable
    (S fuel) attempt lastError r =
  Some (Rejected (nullish_coalesce (Retry.signalReason signal w1) error),
        {| Retry.world := w1;
           Retry.trace := Retry.trace r ++ [Retry.Invoked (Rejected error)] |}).
Proof.
  intros Hlt Hfail Habort. simpl.
  apply Z.ltb_lt in Hlt. rewrite Hlt.
  unfold Retry.invoke. rewrite Hfail. simpl. now rewrite Habort.
Qed.

Lemma app_cons_eq_cons {A : Type} (pre post l : list A) (x a : A) :
  pre ++ x :: post = a :: l ->
  (pre = [] /\ x = a /\ post = l) \/ (exists pre', pre = a :: pre' /\ pre' ++ x :: post = l).
Proof.
  destruct pre as [| b pre']; simpl; intros Heq; inversion Heq; subst.
  - left. auto.
  - right. eauto.
Qed.

(** When [wait] rejects, it rejects with the reason of a signal that is
    aborted at that moment. *)
Lemma wait_rejected ms signal (w w' : World) (c : JsValue) :
  Retry.wait ms signal w = (Rejected c, w') ->
  Retry.signalAborted signal w' = true /\ c = Retry.signalReason signal w'.
Proof.
  unfold Retry.wait.
  destruct (Retry.signalAborted signal w) eqn:Hnow.
  - intros [= <- <-]. auto.
  - destruct (Retry.signalAborted signal (timer_or_abort ms signal w)) eqn:Hthen.
    + intros [= <- <-]. auto.
    + discriminate.
Qed.

(** The loop always settles within its fuel, and a delay that was cancelled
    is the last thing that happened: the call fails with what the delay
    rejected with, and nothing is invoked afterwards. *)
Lemma retryLoop_settles target requestOptions attempts delay signal retryable :
  forall fuel attempt lastError r,
    (Z.to_nat (attempts - attempt) < fuel)%nat ->
    exists out r' events,
      Retry.retryLoop target requestOptions attempts delay signal retryable
        fuel attempt lastError r = Some (out, r')
      /\ Retry.trace r' = Retry.trace r ++ events
      /\ forall pre ms c post,
           events = pre ++ Retry.Waited ms (Rejected c) :: post ->
           post = [] /\ out = Rejected c
           /\ exists w0, Retry.signalAborted signal w0 = true /\ c = Retry.signalReason signal w0.
Proof.
  induction fuel as [| fuel IH]; intros attempt lastError r Hfuel; [lia |].
  simpl. destruct (Z.ltb_spec attempt attempts) as [Hlt | Hge].
  2:{ exists (Rejected lastError), r, []. split; [reflexivity |]. split; [now rewrite app_nil_r |].
      intros [| ? ?] ? ? ? ?; discriminate. }
  unfold Retry.invoke.
  destruct (Retry.resolveTarget target requestOptions (Retry.world r)) as [[value | error] w1].
  { eexists _, _, [_]. split; [reflexivity |]. split; [reflexivity |].
    intros pre ms c post Heq. symmetry in Heq.
    apply app_cons_eq_cons in Heq as [(_ & ? & _) | (pre' & _ & Heq)]; [discriminate |].
    destruct pre'; discriminate. }
  simpl. destruct (Retry.signalAborted signal w1).
  { eexists _, _, [_]. split; [reflexivity |]. split; [reflexivity |].
    intros pre ms c post Heq. symmetry in Heq.
    apply app_cons_eq_cons in Heq as [(_ & ? & _) | (pre' & _ & Heq)]; [discriminate |].
    destruct pre'; discriminate. }
  destruct ((attempt + 1 <? attempts) && retryable error (attempt + 1)); simpl.
  2:{ eexists _, _, [_]. split; [reflexivity |]. split; [reflexivity |].
      intros pre ms c post Heq. symmetry in Heq.
      apply app_cons_eq_cons in Heq as [(_ & ? & _) | (pre' & _ & Heq)]; [discriminate |].
      destruct pre'; discriminate. }
  set (r1 := {| Retry.world := w1;
                Retry.trace := Retry.trace r ++ [Retry.Invoked (Rejected error)] |}).
  pose proof (delayFor_trace delay (attempt + 1) r1) as Htrace.
  destruct (Retry.delayFor delay (attempt + 1) r1) as [delayMs r2]. simpl in Htrace.
  unfold Retry.await_wait.
  destruct (Retry.wait delayMs signal (Retry.world r2)) as [[[] | c] w3] eqn:Hwait.
  - set (r3 := {| Retry.world := w3;
                  Retry.trace := Retry.trace r2 ++ [Retry.Waited delayMs (Fulfilled tt)] |}).
    destruct (IH (attempt + 1) error r3) as (out & r' & events & Hrun & Hev & Hlast); [lia |].
    exists out, r', (Retry.Invoked (Rejected error) :: Retry.Waited delayMs (Fulfilled tt) :: events).
    split; [exact Hrun |]. split.
    + rewrite Hev. subst r3. simpl. rewrite Htrace. subst r1. simpl.
      now rewrite <- !app_assoc.
    + intros pre ms c post Heq. symmetry in Heq.
      apply app_cons_eq_cons in Heq as [(_ & ? & _) | (pre1 & _ & Heq)]; [discriminate |].
      apply app_cons_eq_cons in Heq as [(_ & ? & _) | (pre2 & _ & Heq)]; [discriminate |].
      apply (Hlast pre2 ms c post). now symmetry.
  - exists (Rejected c),
      {| Retry.world := w3;
         Retry.trace := Retry.trace r2 ++ [Retry.Waited delayMs (Rejected c)] |},
      [Retry.Invoked (Rejected error); Retry.Waited delayMs (Rejected c)].
    split; [reflexivity |]. split.
    + simpl. rewrite Htrace. subst r1. simpl. now rewrite <- app_assoc.
    + intros pre ms c' post Heq. symmetry in Heq.
      apply app_cons_eq_cons in Heq as [(_ & ? & _) | (pre1 & _ & Heq)]; [discriminate |].
      apply app_cons_eq_cons in Heq as [(_ & Hc & Hpost) | (pre2 & _ & Heq)].
      * injection Hc as _ ->. subst post. split; [reflexivity |]. split; [reflexivity |].
        exists w3. now apply (wait_rejected delayMs signal (Retry.world r2)).
      * destruct pre2; discriminate.
Qed.

(** A state at the top of the loop is one the loop function runs through:
    from there on the call is the loop resumed in that state. *)
Lemma atLoopTop_resumes target (retryOptions : Retry.RetryOptions World) requestOptions (w : World)
    attempt lastError r :
  Retry.atLoopTop target retryOptions requestOptions w attempt lastError r ->
  0 <= attempt
  /\ forall fuel,
       Retry.retryLoop target requestOptions (Retry.attemptsOf retryOptions)
         (Retry.delayOf retryOptions) (Retry.signal retryOptions) (Retry.retryableOf retryOptions)
         (Z.to_nat attempt + fuel) 0 JsUndefined (Retry.start w) =
       Retry.retryLoop target requestOptions (Retry.attemptsOf retryOptions)
         (Retry.delayOf retryOptions) (Retry.signal retryOptions) (Retry.retryableOf retryOptions)
         fuel attempt lastError r.
Proof.
  induction 1 as [| attempt lastError r error r1 delayMs r2 r3 _ [Hpos IH] Hlt Hcall Hquiet Hgo Hdelay Hwait].
  - split; [lia | reflexivity].
  - split; [lia |]. intros fuel.
    replace (Z.to_nat (attempt + 1) + fuel)%nat with (Z.to_nat attempt + S fuel)%nat by lia.
    rewrite IH. simpl.
    apply Z.ltb_lt in Hlt. rewrite Hlt, Hcall, Hquiet, Hgo. simpl.
    now rewrite Hdelay, Hwait.
Qed.

End RetryFacts.

(** At the top of the loop the counter is the number of invocations made
    so far. *)
Lemma atLoopTop_invocations {World : Type} `{Platform World}
    (target : Retry.RetryTarget World) (retryOptions : Retry.RetryOptions World)
    (requestOptions : option RequestOptions) (w : World)
    (attempt : Z) (lastError : JsValue) (r : Retry.Run World) :
  Retry.atLoopTop target retryOptions requestOptions w attempt lastError r ->
  Z.of_nat (Retry.invocations (Retry.trace r)) = attempt.
Proof.
  induction 1 as [| attempt lastError r error r1 delayMs r2 r3 _ IH _ Hcall _ _ Hdelay Hwait];
    [reflexivity |].
  unfold Retry.invoke in Hcall.
  destruct (Retry.resolveTarget target requestOptions (Retry.world r)) as [result w1].
  injection Hcall as _ <-.
  pose proof (delayFor_trace (Retry.delayOf retryOptions) (attempt + 1)
                {| Retry.world := w1;
                   Retry.trace := Retry.trace r ++ [Retry.Invoked result] |}) as Htrace.
  rewrite Hdelay in Htrace. simpl in Htrace.
  unfold Retry.await_wait in Hwait.
  destruct (Retry.wait delayMs (Retry.signal retryOptions) (Retry.world r2)) as [waited w3].
  injection Hwait as _ <-. simpl. rewrite Htrace.
  rewrite !invocations_app.
  change (Retry.invocations [Retry.Invoked result]) with 1%nat.
  change (Retry.invocations [Retry.Waited delayMs waited]) with 0%nat. lia.
Qed.

(** ** Exhausting the attempts *)



(** ** Stopping on the predicate *)

(** C2, as stated, fails: a predicate that says no at counter 1 stops the
    call after one invocation, not two. *)
Lemma retry_not_retryable_at_1_invokes_once :
  let retryable := fun (_ : JsValue) (attempt : Z) => attempt =? 0 in
  let k := 1 in
  retryable (Testbed.failure 1) k = false
  /\ k < 3
  /\ exists r,
       Retry.retry (Retry.TargetFunction Testbed.alwaysFails)
         {| Retry.attempts := Some 3; Retry.delay := Some (Retry.DelayNumber 0);
            Retry.signal := None; Retry.retryable := Some retryable |}
         None Testbed.quiet = Some (Rejected (Testbed.failure 1), r)
       /\ Z.of_nat (Retry.invocations (Retry.trace r)) = k
       /\ Z.of_nat (Retry.invocations (Retry.trace r)) <> k + 1.
Proof.
  simpl. split; [reflexivity |]. split; [reflexivity |].
  eexists. split; [vm_compute; reflexivity |]. split; [reflexivity | discriminate].
Qed.

(** C2, amended. Whatever the predicate looks at (the error, the counter
    or both): when it is consulted with the counter [k], that is, when a
    call stands at the top of its loop after [k - 1] invocations, the [k]-th
    invocation fails with [error] under a signal that is not aborted and
    [k < attempts], and it answers [false], then [retry] stops there. The
    target has been invoked exactly [k] times, and the call fails with the
    error of that [k]-th invocation, with no delay after it. *)
Theorem retry_stops_when_not_retryable {World : Type} `{Platform World}
    (target : Retry.RetryTarget World) (retryOptions : Retry.RetryOptions World)
    (requestOptions : option RequestOptions) (w : World)
    (k : Z) (lastError : JsValue) (r : Retry.Run World) (error : JsValue) (w1 : World) :
  Retry.atLoopTop target retryOptions requestOptions w (k - 1) lastError r ->
  k < Retry.attemptsOf retryOptions ->
  Retry.resolveTarget target requestOptions (Retry.world r) = (Rejected error, w1) ->
  Retry.signalAborted (Retry.signal retryOptions) w1 = false ->
  Retry.retryableOf retryOptions error k = false ->
  exists r',
    Retry.retry target retryOptions requestOptions w = Some (Rejected error, r')
    /\ Retry.world r' = w1
    /\ Retry.trace r' = Retry.trace r ++ [Retry.Invoked (Rejected error)]
    /\ Z.of_nat (Retry.invocations (Retry.trace r')) = k
    /\ Retry.lastInvocationError (Retry.trace r') = Some error.
Proof.
  intros Htop Hlt Hfail Hquiet Hno.
  destruct (atLoopTop_resumes target retryOptions requestOptions w (k - 1) lastError r Htop)
    as [Hpos Hresume].
  pose proof (atLoopTop_invocations target retryOptions requestOptions w (k - 1) lastError r Htop)
    as Hcount.
  exists {| Retry.world := w1;
            Retry.trace := Retry.trace r ++ [Retry.Invoked (Rejected error)] |}.
  split; [| split; [reflexivity | split; [reflexivity | split]]].
  - unfold Retry.retry.
    destruct (Z.ltb_spec (Retry.attemptsOf retryOptions) 1) as [Hbad | _]; [lia |].
    replace (S (Z.to_nat (Retry.attemptsOf retryOptions)))
      with (Z.to_nat (k - 1)
            + S (Z.to_nat (Retry.attemptsOf retryOptions - (k - 1))))%nat by lia.
    rewrite Hresume. simpl.
    destruct (Z.ltb_spec (k - 1) (Retry.attemptsOf retryOptions)) as [_ | Hge]; [| lia].
    unfold Retry.invoke. rewrite Hfail. simpl. rewrite Hquiet.
    replace (k - 1 + 1) with k by lia. rewrite Hno, andb_false_r. reflexivity.
  - simpl. rewrite invocations_app.
    change (Retry.invocations [Retry.Invoked (Rejected error)]) with 1%nat. lia.
  - simpl. apply lastInvocationError_snoc.
Qed.

(** A predicate that reads the error: it refuses the error of the second
    call, and the call of five attempts stops after two invocations. *)
Lemma retry_stops_when_not_retryable_witness :
  let refuseSecond := fun (error : JsValue) (_ : Z) =>
    match error with
    | JsObject _ [(_, JsString message)] => negb (String.eqb message "fail 2")
    | _ => true
    end in
  let options := {| Retry.attempts := Some 5; Retry.delay := Some (Retry.DelayNumber 0);
                    Retry.signal := None; Retry.retryable := Some refuseSecond |} in
  exists r',
    Retry.retry (Retry.TargetFunction Testbed.alwaysFails) options None Testbed.quiet
      = Some (Rejected (Testbed.failure 2), r')
    /\ Retry.world r' = Testbed.called (Testbed.called Testbed.quiet)
    /\ Retry.trace r' = [Retry.Invoked (Rejected (Testbed.failure 1));
                         Retry.Waited 0 (Fulfilled tt)]
                        ++ [Retry.Invoked (Rejected (Testbed.failure 2))]
    /\ Z.of_nat (Retry.invocations (Retry.trace r')) = 2
    /\ Retry.lastInvocationError (Retry.trace r') = Some (Testbed.failure 2).
Proof.
  intros refuseSecond options.
  apply (retry_stops_when_not_retryable (Retry.TargetFunction Testbed.alwaysFails) options None
           Testbed.quiet 2 (Testbed.failure 1)
           {| Retry.world := Testbed.called Testbed.quiet;
              Retry.trace := [Retry.Invoked (Rejected (Testbed.failure 1));
                              Retry.Waited 0 (Fulfilled tt)] |}
           (Testbed.failure 2) (Testbed.called (Testbed.called Testbed.quiet))).
  - apply (Retry.atLoopTop_again (Retry.TargetFunction Testbed.alwaysFails) options None
             Testbed.quiet 0 JsUndefined (Retry.start Testbed.quiet) (Testbed.failure 1)
             {| Retry.world := Testbed.called Testbed.quiet;
                Retry.trace := [Retry.Invoked (Rejected (Testbed.failure 1))] |}
             0
             {| Retry.world := Testbed.called Testbed.quiet;
                Retry.trace := [Retry.Invoked (Rejected (Testbed.failure 1))] |});
      try reflexivity.
    apply Retry.atLoopTop_start.
  - reflexivity.
  - reflexivity.
  - reflexivity.
  - reflexivity.
Defined.

(** ** Cancellation seen when a failure is caught *)

(** C3, as stated, fails at the reason [null]: the call fails with the
    operation's error, not with the signal's reason. *)
Lemma retry_null_reason_surfaces_error :
  let w := {| Testbed.now := 0; Testbed.calls := 0;
              Testbed.abortAt := Some (0, JsNull); Testbed.nextRandom := 0 |} in
  aborted Testbed.controllerSignal (Testbed.called w) = true
  /\ reason Testbed.controllerSignal (Testbed.called w) = JsNull
  /\ exists r,
       Retry.retry (Retry.TargetFunction Testbed.alwaysFails)
         {| Retry.attempts := Some 3; Retry.delay := Some (Retry.DelayNumber 50);
            Retry.signal := Some Testbed.controllerSignal; Retry.retryable := None |}
         None w = Some (Rejected (Testbed.failure 1), r)
       /\ Testbed.failure 1 <> JsNull.
Proof.
  simpl. split; [reflexivity |]. split; [reflexivity |].
  eexists. split; [vm_compute; reflexivity | discriminate].
Qed.

(** C3, amended. Whenever a call of [retry] stands at the top of its loop
    with attempts left, the invocation of the target fails with [error], and
    the signal is aborted at that moment, the call fails at once with
    [signal.reason ?? error]: with the signal's reason, verbatim and in
    preference to the operation's error, for every reason other than [null]
    and [undefined], and with the operation's error when the reason is
    [null] or [undefined]. In both cases no predicate is consulted, no delay
    is started and nothing more is invoked. *)
Theorem retry_prefers_cancellation_reason {World : Type} `{Platform World}
    (target : Retry.RetryTarget World) (retryOptions : Retry.RetryOptions World)
    (requestOptions : option RequestOptions) (w : World) (signal : AbortSignal World)
    (attempt : Z) (lastError : JsValue) (r : Retry.Run World)
    (error : JsValue) (w1 : World) :
  Retry.signal retryOptions = Some signal ->
  Retry.atLoopTop target retryOptions requestOptions w attempt lastError r ->
  attempt < Retry.attemptsOf retryOptions ->
  Retry.resolveTarget target requestOptions (Retry.world r) = (Rejected error, w1) ->
  aborted signal w1 = true ->
  exists surfaced,
    Retry.retry target retryOptions requestOptions w =
      Some (Rejected surfaced,
            {| Retry.world := w1;
               Retry.trace := Retry.trace r ++ [Retry.Invoked (Rejected error)] |})
    /\ (reason signal w1 <> JsNull -> reason signal w1 <> JsUndefined ->
        surfaced = reason signal w1)
    /\ (reason signal w1 = JsNull \/ reason signal w1 = JsUndefined ->
        surfaced = error).
Proof.
  intros Hsignal Htop Hlt Hfail Habort.
  destruct (atLoopTop_resumes target retryOptions requestOptions w attempt lastError r Htop)
    as [Hpos Hresume].
  exists (nullish_coalesce (reason signal w1) error). split; [| split].
  - unfold Retry.retry.
    destruct (Z.ltb_spec (Retry.attemptsOf retryOptions) 1) as [Hbad | _]; [lia |].
    replace (S (Z.to_nat (Retry.attemptsOf retryOptions)))
      with (Z.to_nat attempt + S (Z.to_nat (Retry.attemptsOf retryOptions - attempt)))%nat by lia.
    rewrite Hresume.
    rewrite (retryLoop_caught_aborted target requestOptions _ _ _ _ _ attempt lastError r error w1
               Hlt Hfail); rewrite Hsignal; simpl; [reflexivity | exact Habort].
  - intros Hnull Hundefined. unfold nullish_coalesce.
    destruct (reason signal w1); try reflexivity; contradiction.
  - intros [Hreason | Hreason]; unfold nullish_coalesce; now rewrite Hreason.
Qed.

(** The controller aborted with a string, with [null], and with a reason
    that reads [undefined]. *)
Lemma retry_prefers_cancellation_reason_witness :
  let world := fun abortReason =>
    {| Testbed.now := 0; Testbed.calls := 0;
       Testbed.abortAt := Some (0, abortReason); Testbed.nextRandom := 0 |} in
  let options := {| Retry.attempts := Some 3; Retry.delay := Some (Retry.DelayNumber 50);
                    Retry.signal := Some Testbed.controllerSignal; Retry.retryable := None |} in
  let outcome := fun abortReason =>
    fst <$> Retry.retry (Retry.TargetFunction Testbed.alwaysFails) options None
              (world abortReason) in
  outcome (JsString "cancelled") = Some (Rejected (JsString "cancelled"))
  /\ outcome JsNull = Some (Rejected (Testbed.failure 1))
  /\ outcome JsUndefined = Some (Rejected (Testbed.failure 1)).
Proof.
  intros world options outcome.
  assert (Hrun : forall abortReason, exists surfaced,
             outcome abortReason = Some (Rejected surfaced)
             /\ (abortReason <> JsNull -> abortReason <> JsUndefined -> surfaced = abortReason)
             /\ (abortReason = JsNull \/ abortReason = JsUndefined ->
                 surfaced = Testbed.failure 1)).
  { intros abortReason.
    destruct (retry_prefers_cancellation_reason (Retry.TargetFunction Testbed.alwaysFails)
                options None (world abortReason) Testbed.controllerSignal 0 JsUndefined
                (Retry.start (world abortReason)) (Testbed.failure 1)
                (Testbed.called (world abortReason)))
      as (surfaced & Hretry & Hreason & Hnullish); try reflexivity.
    - apply Retry.atLoopTop_start.
    - exists surfaced. unfold outcome. rewrite Hretry. split; [reflexivity |].
      split; [exact Hreason | exact Hnullish]. }
  split; [| split].
  - destruct (Hrun (JsString "cancelled")) as (surfaced & -> & Hreason & _).
    now rewrite Hreason.
  - destruct (Hrun JsNull) as (surfaced & -> & _ & Hnullish).
    rewrite Hnullish; [reflexivity | now left].
  - destruct (Hrun JsUndefined) as (surfaced & -> & _ & Hnullish).
    rewrite Hnullish; [reflexivity | now right].
Defined.

(** ** Cancellation during the delay *)

(** C4. A delay asked for under an aborted signal rejects at once with the
    signal's reason, the timer never being armed (the world is untouched);
    a delay during which the signal becomes aborted rejects with the reason
    it has at that moment; every call of [retry] settles, a cancelled delay
    being the last event of the call. And [retry] waits under its own
    signal: whenever a call stands at the top of its loop, the invocation
    fails without the signal being aborted, a retry is decided, and the
    signal is aborted when the delay starts or becomes aborted while the
    call is suspended in it, the whole call fails with the signal's reason
    as it is at that moment, and the target is not invoked again. *)
Theorem retry_cancelled_during_delay {World : Type} `{Platform World}
    (target : Retry.RetryTarget World) (retryOptions : Retry.RetryOptions World)
    (requestOptions : option RequestOptions) (w : World) :
  (forall ms (s : AbortSignal World) w0,
      aborted s w0 = true ->
      Retry.wait ms (Some s) w0 = (Rejected (reason s w0), w0))
  /\ (forall ms (s : AbortSignal World) w0,
        aborted s w0 = false ->
        aborted s (timer_or_abort ms (Some s) w0) = true ->
        Retry.wait ms (Some s) w0 =
          (Rejected (reason s (timer_or_abort ms (Some s) w0)), timer_or_abort ms (Some s) w0))
  /\ (exists out r,
       Retry.retry target retryOptions requestOptions w = Some (out, r)
       /\ forall pre ms c post,
            Retry.trace r = pre ++ Retry.Waited ms (Rejected c) :: post ->
            post = [] /\ out = Rejected c
            /\ exists w0,
                 Retry.signalAborted (Retry.signal retryOptions) w0 = true
                 /\ c = Retry.signalReason (Retry.signal retryOptions) w0)
  /\ (forall (s : AbortSignal World) attempt lastError r error w1 delayMs r2,
        Retry.signal retryOptions = Some s ->
        Retry.atLoopTop target retryOptions requestOptions w attempt lastError r ->
        Retry.resolveTarget target requestOptions (Retry.world r) = (Rejected error, w1) ->
        aborted s w1 = false ->
        attempt + 1 < Retry.attemptsOf retryOptions ->
        Retry.retryableOf retryOptions error (attempt + 1) = true ->
        Retry.delayFor (Retry.delayOf retryOptions) (attempt + 1)
          {| Retry.world := w1;
             Retry.trace := Retry.trace r ++ [Retry.Invoked (Rejected error)] |}
          = (delayMs, r2) ->
        let settled :=
          if aborted s (Retry.world r2) then Retry.world r2
          else timer_or_abort delayMs (Some s) (Retry.world r2) in
        aborted s settled = true ->
        exists r',
          Retry.retry target retryOptions requestOptions w
            = Some (Rejected (reason s settled), r')
          /\ Retry.world r' = settled
          /\ Retry.trace r' =
               Retry.trace r ++ [Retry.Invoked (Rejected error);
                                 Retry.Waited delayMs (Rejected (reason s settled))]
          /\ Z.of_nat (Retry.invocations (Retry.trace r')) = attempt + 1).
Proof.
  split; [| split; [| split]].
  - intros ms s w0 Habort. unfold Retry.wait. simpl. now rewrite Habort.
  - intros ms s w0 Hnow Hthen. unfold Retry.wait. simpl. now rewrite Hnow, Hthen.
  - unfold Retry.retry.
    destruct (Retry.attemptsOf retryOptions <? 1).
    + eexists _, _. split; [reflexivity |].
      intros [| ? ?] ? ? ? ?; discriminate.
    + set (attempts := Retry.attemptsOf retryOptions).
      destruct (retryLoop_settles target requestOptions attempts
                  (Retry.delayOf retryOptions)
                  (Retry.signal retryOptions)
                  (Retry.retryableOf retryOptions)
                  (S (Z.to_nat attempts)) 0 JsUndefined (Retry.start w))
        as (out & r & events & Hrun & Hev & Hlast); [lia |].
      exists out, r. split; [exact Hrun |].
      simpl in Hev. subst events. exact Hlast.
  - intros s attempt lastError r error w1 delayMs r2 Hsignal Htop Hfail Hquiet Hmore Hyes
      Hdelay settled Hcancelled.
    destruct (atLoopTop_resumes target retryOptions requestOptions w attempt lastError r Htop)
      as [Hpos Hresume].
    pose proof (atLoopTop_invocations target retryOptions requestOptions w attempt lastError r Htop)
      as Hcount.
    pose proof (delayFor_trace (Retry.delayOf retryOptions) (attempt + 1)
                  {| Retry.world := w1;
                     Retry.trace := Retry.trace r ++ [Retry.Invoked (Rejected error)] |})
      as Htrace.
    rewrite Hdelay in Htrace. simpl in Htrace.
    exists {| Retry.world := settled;
              Retry.trace := Retry.trace r2
                             ++ [Retry.Waited delayMs (Rejected (reason s settled))] |}.
    split; [| split; [reflexivity | split]].
    + unfold Retry.retry.
      destruct (Z.ltb_spec (Retry.attemptsOf retryOptions) 1) as [Hbad | _]; [lia |].
      replace (S (Z.to_nat (Retry.attemptsOf retryOptions)))
        with (Z.to_nat attempt + S (Z.to_nat (Retry.attemptsOf retryOptions - attempt)))%nat
        by lia.
      rewrite Hresume. simpl.
      destruct (Z.ltb_spec attempt (Retry.attemptsOf retryOptions)) as [_ | Hge]; [| lia].
      unfold Retry.invoke. rewrite Hfail. simpl. rewrite Hsignal. simpl. rewrite Hquiet.
      destruct (Z.ltb_spec (attempt + 1) (Retry.attemptsOf retryOptions)) as [_ | Hge]; [| lia].
      rewrite Hyes. simpl. rewrite Hdelay.
      unfold Retry.await_wait, Retry.wait. simpl. subst settled.
      destruct (aborted s (Retry.world r2)); [reflexivity |].
      now rewrite Hcancelled.
    + simpl. rewrite Htrace. now rewrite <- app_assoc.
    + simpl. rewrite Htrace, !invocations_app.
      change (Retry.invocations [Retry.Invoked (Rejected error)]) with 1%nat.
      change (Retry.invocations [Retry.Waited delayMs (Rejected (reason s settled))]) with 0%nat.
      lia.
Qed.

(** The scenario of the test suite: three attempts, 50 ms between them, the
    controller aborted 20 ms into the first delay. *)
Lemma retry_cancelled_during_delay_witness :
  let w := {| Testbed.now := 0; Testbed.calls := 0;
              Testbed.abortAt := Some (20, JsString "cancelled"); Testbed.nextRandom := 0 |} in
  let w' := {| Testbed.now := 20; Testbed.calls := 1;
               Testbed.abortAt := Some (20, JsString "cancelled"); Testbed.nextRandom := 0 |} in
  let options := {| Retry.attempts := Some 3; Retry.delay := Some (Retry.DelayNumber 50);
                    Retry.signal := Some Testbed.controllerSignal; Retry.retryable := None |} in
  exists r',
    Retry.retry (Retry.TargetFunction Testbed.alwaysFails) options None w
      = Some (Rejected (JsString "cancelled"), r')
    /\ Retry.world r' = w'
    /\ Retry.trace r' = [] ++ [Retry.Invoked (Rejected (Testbed.failure 1));
                               Retry.Waited 50 (Rejected (JsString "cancelled"))]
    /\ Z.of_nat (Retry.invocations (Retry.trace r')) = 0 + 1.
Proof.
  intros w w' options.
  destruct (proj2 (proj2 (proj2 (retry_cancelled_during_delay
                                   (Retry.TargetFunction Testbed.alwaysFails) options None w)))
              Testbed.controllerSignal 0 JsUndefined (Retry.start w) (Testbed.failure 1)
              (Testbed.called w) 50
              {| Retry.world := Testbed.called w;
                 Retry.trace := [Retry.Invoked (Rejected (Testbed.failure 1))] |})
    as (r' & Hrun & Hworld & Htrace & Hcount); try reflexivity.
  - apply Retry.atLoopTop_start.
  - exists r'. split; [rewrite Hrun; reflexivity |].
    split; [rewrite Hworld; reflexivity |].
    split; [rewrite Htrace; reflexivity | exact Hcount].
Defined.

(** ** The default backoff *)

(** C5, as stated, fails: with the random draw at 0 the jitter factor is
    0.85 and the delay for attempt 1 is 340 ms, below 400. *)
Lemma defaultDelay_1_can_be_340 :
  (0 <= fst (Math_random Testbed.quiet))%Q
  /\ (fst (Math_random Testbed.quiet) < 1)%Q
  /\ fst (Retry.defaultDelay 1 Testbed.quiet) = 340
  /\ ~ (400 <= fst (Retry.defaultDelay 1 Testbed.quiet) <= 460).
Proof.
  split; [vm_compute; discriminate |]. split; [reflexivity |].
  split; [reflexivity |]. vm_compute. intros [Hlow _]. now apply Hlow.
Qed.

(** C5, amended. For attempt index 1 the default delay (base 200 ms,
    doubled once, times a jitter factor in [0.85, 1.15), rounded) lies in
    [340, 460] ms, whatever [Math.random] draws in [0, 1). *)
Theorem defaultDelay_1_bounds {World : Type} `{Platform World} (w : World) :
  (0 <= fst (Math_random w))%Q ->
  (fst (Math_random w) < 1)%Q ->
  340 <= fst (Retry.defaultDelay 1 w) <= 460.
Proof.
  intros Hlow Hhigh. unfold Retry.defaultDelay.
  destruct (Math_random w) as [random w']. simpl in *.
  unfold Retry.Math_round.
  change (Qpower 2 1) with 2%Q.
  split.
  - change 340 with (Qfloor (inject_Z 340)). apply Qfloor_resp_le.
    unfold inject_Z. lra.
  - change 460 with (Qfloor ((inject_Z 460) + (1 # 2))). apply Qfloor_resp_le.
    unfold inject_Z. lra.
Qed.

Lemma defaultDelay_1_bounds_witness :
  340 <= fst (Retry.defaultDelay 1 Testbed.quiet) <= 460.
Proof.
  apply (defaultDelay_1_bounds Testbed.quiet).
  - vm_compute. discriminate.
  - reflexivity.
Defined.

(** ** Invalid configuration *)

(** C6. With [attempts < 1], [retry] fails with the configuration error
    before anything else happens: the target is not invoked, no delay is
    started and the world is as it was at the call. *)
Theorem retry_rejects_attempts_below_1 {World : Type} `{Platform World}
    (target : Retry.RetryTarget World) (retryOptions : Retry.RetryOptions World)
    (requestOptions : option RequestOptions) (N : Z) (w : World) :
  Retry.attempts retryOptions = Some N ->
  N < 1 ->
  exists r,
    Retry.retry target retryOptions requestOptions w =
      Some (Rejected (new_Error "retry: attempts must be at least 1"), r)
    /\ Retry.world r = w
    /\ Retry.trace r = []
    /\ Retry.invocations (Retry.trace r) = 0%nat.
Proof.
  intros Hattempts HN. unfold Retry.retry, Retry.attemptsOf. rewrite Hattempts. simpl.
  destruct (Z.ltb_spec N 1) as [_ | Hge]; [| lia].
  exists (Retry.start w). repeat split.
Qed.

Lemma retry_rejects_attempts_below_1_witness :
  exists r,
    Retry.retry (Retry.TargetFunction Testbed.alwaysFails)
      {| Retry.attempts := Some 0; Retry.delay := None;
         Retry.signal := None; Retry.retryable := None |} None Testbed.quiet =
      Some (Rejected (new_Error "retry: attempts must be at least 1"), r)
    /\ Retry.world r = Testbed.quiet
    /\ Retry.trace r = []
    /\ Retry.invocations (Retry.trace r) = 0%nat.
Proof.
  apply (retry_rejects_attempts_below_1 (Retry.TargetFunction Testbed.alwaysFails)
           {| Retry.attempts := Some 0; Retry.delay := None;
              Retry.signal := None; Retry.retryable := None |} None 0 Testbed.quiet).
  - reflexivity.
  - lia.
Defined.

(** ** The fetcher *)

Section FetcherFacts.

Context {World : Type} `{Platform World}.

(** [fetcher] hands [fetch] the request built from the options and makes
    of the response what [readResponse] says; a failure of [fetch] itself is
    passed on. *)
Lemma fetcher_unfold (url : string) (options : option RequestOptions) (w : World) :
  Fetcher.fetcher url options w =
  match fetch url (Fetcher.buildRequest options) w with
  | (Fulfilled response, w1) =>
      Fetcher.readResponse (init_method (Fetcher.buildRequest options)) response w1
  | (Rejected error, w1) => (Rejected error, w1)
  end.
Proof.
  unfold Fetcher.fetcher, Async.catch, Async.bind, Async.throw.
  destruct (fetch url (Fetcher.buildRequest options) w) as [[response | error] w1]; [| reflexivity].
  now destruct (Fetcher.readResponse _ response w1) as [[value | error] w2].
Qed.

Lemma startsWith_refl (s : string) : startsWith s s = true.
Proof.
  induction s as [| c s IH]; simpl; [reflexivity |].
  now rewrite Ascii.eqb_refl.
Qed.

Lemma includes_suffix (needle before : string) :
  includes needle (before +:+ needle) = true.
Proof.
  induction before as [| c before IH]; simpl.
  - destruct needle as [| c needle]; simpl; [reflexivity |].
    now rewrite Ascii.eqb_refl, startsWith_refl.
  - rewrite IH. apply orb_true_r.
Qed.

Lemma trim_nonEmpty (s : string) : nonEmpty (trim s) = true -> nonEmpty s = true.
Proof.
  destruct s; [discriminate | reflexivity].
Qed.

(** A message that [extractErrorMessage] returns is never empty, so the
    [||] after it keeps it. *)
Lemma extractErrorMessage_nonEmpty (value : JsValue) (message : string) :
  Fetcher.extractErrorMessage value = Some message -> nonEmpty message = true.
Proof.
  destruct value as [| | b | n | s | items | proto props]; simpl; try discriminate.
  - destruct (nonEmpty (trim s)) eqn:Hs; [| discriminate].
    intros [= <-]. now apply trim_nonEmpty.
  - destruct (get_prop "message" props) as [[| | b | n | m | items | proto' props'] |];
      try discriminate.
    destruct (nonEmpty (trim m)) eqn:Hm; [| discriminate].
    now intros [= <-].
Qed.

(** The message of the error thrown for a response that is not [ok]. *)
Lemma errorMessageOf_spec (response : Response World) (w1 : World) :
  Fetcher.errorMessageOf response w1 =
  match json response w1 with
  | (Fulfilled data, w2) =>
      (Fulfilled (default (Fetcher.httpErrorMessage (status response))
                    (Fetcher.extractErrorMessage data)), w2)
  | (Rejected _, w2) => (Fulfilled (Fetcher.httpErrorMessage (status response)), w2)
  end.
Proof.
  unfold Fetcher.errorMessageOf, Async.bind, Async.catch, Async.ret.
  destruct (json response w1) as [[data | error] w2]; [| reflexivity].
  destruct (Fetcher.extractErrorMessage data) as [message |] eqn:Hextract; [| reflexivity].
  simpl. now rewrite (extractErrorMessage_nonEmpty data message Hextract).
Qed.

End FetcherFacts.

(** C7. For a successful response: status 204 yields [undefined] whatever
    the method and without the body being read; a JSON-flavoured 200 whose
    text is empty after trimming yields [undefined]; and a JSON-flavoured
    200 carrying the text [{"hello":"world"}] (a response that is not one of
    the no-content cases: the method is not HEAD and no [content-length] of
    0 is announced) yields what [JSON.parse] makes of it, the mapping with
    the key [hello] bound to ["world"]. *)
Theorem fetcher_classifies_success {World : Type} `{Platform World}
    (url : string) (options : option RequestOptions) (w : World)
    (response : Response World) (w1 : World) :
  fetch url (Fetcher.buildRequest options) w = (Fulfilled response, w1) ->
  ok response = true ->
  (status response = 204 ->
   Fetcher.fetcher url options w = (Fulfilled JsUndefined, w1))
  /\ (forall body w2,
        status response = 200 ->
        Fetcher.isJsonFlavored response = true ->
        text response w1 = (Fulfilled body, w2) ->
        trim body = EmptyString ->
        fst (Fetcher.fetcher url options w) = Fulfilled JsUndefined)
  /\ (forall w2,
        status response = 200 ->
        Fetcher.isJsonFlavored response = true ->
        init_method (Fetcher.buildRequest options) <> HEAD ->
        (forall length,
            Headers.get (resp_headers response) "content-length" = Some length ->
            trim length <> "0") ->
        text response w1 = (Fulfilled Testbed.helloWorld, w2) ->
        JSON_parse Testbed.helloWorld =
          Fulfilled (JsObject ObjectPrototype [("hello", JsString "world")]) ->
        Fetcher.fetcher url options w =
          (Fulfilled (JsObject ObjectPrototype [("hello", JsString "world")]), w2)).
Proof.
  intros Hfetch Hok. rewrite fetcher_unfold, Hfetch.
  unfold Fetcher.readResponse. rewrite Hok. simpl.
  split; [| split].
  - intros Hstatus. unfold Fetcher.responseHasNoContent. rewrite Hstatus. simpl.
    now rewrite orb_true_r.
  - intros body w2 _ Hjson Htext Hblank.
    destruct (Fetcher.responseHasNoContent _ response); [reflexivity |].
    rewrite Hjson. unfold Async.bind. rewrite Htext, Hblank. reflexivity.
  - intros w2 Hstatus Hjson Hmethod Hlength Htext Hparse.
    assert (Hcontent : Fetcher.responseHasNoContent
                         (init_method (Fetcher.buildRequest options)) response = false).
    { unfold Fetcher.responseHasNoContent. rewrite Hstatus. simpl.
      destruct (init_method (Fetcher.buildRequest options)); try contradiction; simpl;
        (destruct (Headers.get (resp_headers response) "content-length") as [length |] eqn:Hget;
         [| reflexivity]);
        apply String.eqb_neq; now apply Hlength. }
    rewrite Hcontent, Hjson. unfold Async.bind. rewrite Htext.
    change (negb (nonEmpty (trim Testbed.helloWorld))) with false. simpl.
    now rewrite Hparse.
Qed.

Lemma fetcher_classifies_success_witness :
  Fetcher.fetcher "https://example.com/empty" None Testbed.quiet
    = (Fulfilled JsUndefined, Testbed.quiet)
  /\ fst (Fetcher.fetcher "https://example.com/blank" None Testbed.quiet)
     = Fulfilled JsUndefined
  /\ Fetcher.fetcher "https://example.com" None Testbed.quiet
     = (Fulfilled (JsObject ObjectPrototype [("hello", JsString "world")]), Testbed.quiet).
Proof.
  split; [| split].
  - apply (fetcher_classifies_success "https://example.com/empty" None Testbed.quiet
             (Testbed.respond 204 [] EmptyString) Testbed.quiet); reflexivity.
  - refine (proj1 (proj2 (fetcher_classifies_success "https://example.com/blank" None Testbed.quiet
                            (Testbed.respond 200 Testbed.jsonHeaders "  ") Testbed.quiet _ _))
              "  " Testbed.quiet _ _ _ _); reflexivity.
  - refine (proj2 (proj2 (fetcher_classifies_success "https://example.com" None Testbed.quiet
                            (Testbed.respond 200 Testbed.jsonHeaders Testbed.helloWorld)
                            Testbed.quiet _ _)) Testbed.quiet _ _ _ _ _ _);
      try reflexivity.
    + discriminate.
    + intros length Hget. vm_compute in Hget. discriminate.
Defined.

(** C8. For a response that is not [ok], [fetcher] fails with an [Error]
    whose message is: the trimmed [message] field of the JSON-decoded body
    when that is a string with something in it (["Boom"] for the body
    [{"message":"Boom"}]); the decoded body itself when it is a string with
    something in it; and the fallback [HTTP error! Status: <status>], which
    contains the status code, when nothing can be extracted or when decoding
    the body fails. In the last case the decoding failure is not what
    [fetcher] fails with. *)
Theorem fetcher_error_message {World : Type} `{Platform World}
    (url : string) (options : option RequestOptions) (w : World)
    (response : Response World) (w1 : World) :
  fetch url (Fetcher.buildRequest options) w = (Fulfilled response, w1) ->
  ok response = false ->
  exists message w2,
    Fetcher.fetcher url options w = (Rejected (new_Error message), w2)
    /\ (forall data w',
          json response w1 = (Fulfilled data, w') ->
          (forall proto props m,
              data = JsObject proto props ->
              get_prop "message" props = Some (JsString m) ->
              nonEmpty (trim m) = true ->
              message = trim m)
          /\ (forall s, data = JsString s -> nonEmpty (trim s) = true -> message = s)
          /\ (data = JsObject ObjectPrototype [("message", JsString "Boom")] -> message = "Boom")
          /\ (Fetcher.extractErrorMessage data = None ->
              message = Fetcher.httpErrorMessage (status response)))
    /\ (forall decodeError w',
          json response w1 = (Rejected decodeError, w') ->
          message = Fetcher.httpErrorMessage (status response))
    /\ includes (pretty (status response)) (Fetcher.httpErrorMessage (status response)) = true.
Proof.
  intros Hfetch Hok.
  assert (Hstatus : includes (pretty (status response))
                      (Fetcher.httpErrorMessage (status response)) = true)
    by apply includes_suffix.
  rewrite fetcher_unfold, Hfetch.
  unfold Fetcher.readResponse. rewrite Hok. simpl.
  unfold Async.bind, Async.throw. rewrite errorMessageOf_spec.
  destruct (json response w1) as [[data | decodeError] w2] eqn:Hjson.
  - exists (default (Fetcher.httpErrorMessage (status response)) (Fetcher.extractErrorMessage data)), w2.
    split; [reflexivity |]. split; [| split].
    + intros data' w' [= <- <-]. repeat split.
      * intros proto props m -> Hprop Hm. simpl. now rewrite Hprop, Hm.
      * intros s -> Hs. simpl. now rewrite Hs.
      * intros ->. reflexivity.
      * intros ->. reflexivity.
    + intros decodeError w' [=].
    + exact Hstatus.
  - exists (Fetcher.httpErrorMessage (status response)), w2.
    split; [reflexivity |]. split; [| split].
    + intros data w' [=].
    + reflexivity.
    + exact Hstatus.
Qed.

Lemma fetcher_error_message_witness :
  exists message w2,
    Fetcher.fetcher "https://example.com/error" None Testbed.quiet
      = (Rejected (new_Error message), w2)
    /\ message = "Boom".
Proof.
  destruct (fetcher_error_message "https://example.com/error" None Testbed.quiet
              (Testbed.respond 500 Testbed.jsonHeaders Testbed.messageBoom) Testbed.quiet)
    as (message & w2 & Hrun & Hdecoded & _); [reflexivity | reflexivity |].
  exists message, w2. split; [exact Hrun |].
  apply (Hdecoded (JsObject ObjectPrototype [("message", JsString "Boom")]) Testbed.quiet);
    reflexivity.
Defined.

(** ** The request *)

Section RequestFacts.

Context {World : Type} `{Platform World}.

(** A name that the caller did not use is not in the [Headers] object made
    of the caller's pairs. *)
Lemma Headers_make_fresh (init : list (string * string)) (key : string) :
  (forall name value, In (name, value) init -> toLowerCase name <> key) ->
  forall h : gmap string string,
    fold_left (fun h kv => Headers.append h (fst kv) (snd kv)) init h !! key = h !! key.
Proof.
  induction init as [| [name value] init IH]; intros Hfresh h; simpl; [reflexivity |].
  rewrite IH.
  - unfold Headers.append.
    assert (Hne : toLowerCase name <> key) by (apply (Hfresh name value); now left).
    destruct (h !! toLowerCase name); now rewrite lookup_insert_ne.
  - intros name' value' Hin. apply (Hfresh name' value'). now right.
Qed.

Lemma serializable_not_FormData (body : JsValue) :
  Fetcher.shouldSerializeToJson body = true ->
  isNullish body = false /\ Fetcher.instanceofFormData body = false.
Proof.
  destruct body as [| | b | n | s | items | [] props]; simpl; try discriminate; auto.
Qed.

Lemma FormData_not_nullish (body : JsValue) :
  Fetcher.instanceofFormData body = true -> isNullish body = false.
Proof.
  destruct body as [| | b | n | s | items | [] props]; simpl; try discriminate; auto.
Qed.

End RequestFacts.

(** C9. The request that [fetcher] hands to [fetch] is [buildRequest] of the
    options. When the body is a plain mapping or a sequence, the request
    body is its [JSON.stringify] text; if none of the caller's header names
    is [content-type] (in any case), the request carries
    [content-type: application/json] and the caller's other headers as they
    were; if the caller set a [content-type], the headers are the caller's,
    untouched. When the body is a [FormData], the request body is that very
    value and the request has no [content-type] header, the other headers
    being as the caller gave them. *)
Theorem buildRequest_body_and_content_type {World : Type} `{Platform World}
    (o : RequestOptions) :
  (Fetcher.shouldSerializeToJson (body o) = true ->
   init_body (Fetcher.buildRequest (Some o)) = Some (JsString (JSON_stringify (body o)))
   /\ ((forall name value, In (name, value) (headers o) -> toLowerCase name <> "content-type") ->
       Headers.get (init_headers (Fetcher.buildRequest (Some o))) "Content-Type"
         = Some "application/json"
       /\ forall other,
            toLowerCase other <> "content-type" ->
            Headers.get (init_headers (Fetcher.buildRequest (Some o))) other
              = Headers.get (Headers.make (headers o)) other)
   /\ (Headers.has (Headers.make (headers o)) "Content-Type" = true ->
       init_headers (Fetcher.buildRequest (Some o)) = Headers.make (headers o)))
  /\ (Fetcher.instanceofFormData (body o) = true ->
      init_body (Fetcher.buildRequest (Some o)) = Some (body o)
      /\ Headers.get (init_headers (Fetcher.buildRequest (Some o))) "Content-Type" = None
      /\ forall other,
           toLowerCase other <> "content-type" ->
           Headers.get (init_headers (Fetcher.buildRequest (Some o))) other
             = Headers.get (Headers.make (headers o)) other)
  /\ (forall url w,
        Fetcher.fetcher url (Some o) w =
        match fetch url (Fetcher.buildRequest (Some o)) w with
        | (Fulfilled response, w1) =>
            Fetcher.readResponse (init_method (Fetcher.buildRequest (Some o))) response w1
        | (Rejected error, w1) => (Rejected error, w1)
        end).
Proof.
  split; [| split].
  - intros Hplain.
    destruct (serializable_not_FormData (body o) Hplain) as [Hsome Hform].
    unfold Fetcher.buildRequest. simpl. rewrite Hsome, Hform, Hplain. simpl.
    split; [reflexivity |]. split.
    + intros Hfresh.
      assert (Hnone : Headers.make (headers o) !! "content-type" = None).
      { unfold Headers.make. rewrite (Headers_make_fresh (headers o) "content-type" Hfresh).
        apply lookup_empty. }
      assert (Hhas : Headers.has (Headers.make (headers o)) "Content-Type" = false).
      { unfold Headers.has. change (toLowerCase "Content-Type") with "content-type".
        rewrite Hnone. apply bool_decide_eq_false. now intros [? ?]. }
      rewrite Hhas. simpl. unfold Headers.get, Headers.set.
      change (toLowerCase "Content-Type") with "content-type".
      split; [apply lookup_insert_eq |].
      intros other Hother. now rewrite lookup_insert_ne.
    + intros Hhas. now rewrite Hhas.
  - intros Hform.
    unfold Fetcher.buildRequest. simpl. rewrite (FormData_not_nullish (body o) Hform), Hform. simpl.
    split; [reflexivity |]. unfold Headers.get, Headers.delete.
    change (toLowerCase "Content-Type") with "content-type".
    split; [apply lookup_delete_eq |].
    intros other Hother. now rewrite lookup_delete_ne.
  - intros url w. apply fetcher_unfold.
Qed.

(** A [POST] of [{title: "x"}] without headers, and a [FormData] sent with a
    [Content-Type] of the caller's. *)
Lemma buildRequest_body_and_content_type_witness :
  let json := {| method := Some POST;
                 body := JsObject ObjectPrototype [("title", JsString "x")];
                 headers := [("Accept", "*/*")];
                 restOptions := [] |} in
  let form := {| method := Some POST;
                 body := JsObject FormDataPrototype [];
                 headers := [("Content-Type", "multipart/form-data"); ("Accept", "*/*")];
                 restOptions := [] |} in
  (init_body (Fetcher.buildRequest (Some json))
     = Some (JsString ("{" +:+ quoted "title" +:+ ":" +:+ quoted "x" +:+ "}"))
   /\ Headers.get (init_headers (Fetcher.buildRequest (Some json))) "Content-Type"
      = Some "application/json")
  /\ (init_body (Fetcher.buildRequest (Some form)) = Some (JsObject FormDataPrototype [])
      /\ Headers.get (init_headers (Fetcher.buildRequest (Some form))) "Content-Type" = None).
Proof.
  intros json form. split.
  - destruct (proj1 (buildRequest_body_and_content_type json) eq_refl) as (Hbody & Hset & _).
    split; [exact Hbody |].
    apply Hset. intros name value [[= <- <-] | []]. discriminate.
  - destruct (proj1 (proj2 (buildRequest_body_and_content_type form)) eq_refl)
      as (Hbody & Hgone & _).
    split; [exact Hbody | exact Hgone].
Defined.

(** ** tryCatch *)

(** C10, as stated, fails: a thunk that resolves to [null] gives the tuple
    [[null, null]], in which neither side is populated. *)
Lemma tryCatch_null_gives_null_null :
  TryCatch.tryCatch (TryCatch.InputFunction (Async.ret JsNull)) None Testbed.quiet
    = (Fulfilled (JsNull, JsNull), Testbed.quiet)
  /\ xorb (isNull JsNull) (isNull JsNull) = false.
Proof.
  split; reflexivity.
Qed.

(** C10, amended. [tryCatch] never rejects: it resolves to [[value, null]]
    when the input resolves to [value] and to [[null, error]] when it fails
    with [error]; exactly one side of the tuple differs from [null] whenever
    that value, or that error, is not itself [null]. *)
Theorem tryCatch_resolves_to_tuple {World : Type} `{Platform World}
    (input : TryCatch.TryCatchInput World) (requestOptions : option RequestOptions)
    (w : World) :
  exists tuple w',
    TryCatch.tryCatch input requestOptions w = (Fulfilled tuple, w')
    /\ match TryCatch.resolveInput input requestOptions w with
       | (Fulfilled value, w1) =>
           tuple = (value, JsNull) /\ w' = w1
           /\ (isNull value = false -> xorb (isNull (fst tuple)) (isNull (snd tuple)) = true)
       | (Rejected error, w1) =>
           tuple = (JsNull, error) /\ w' = w1
           /\ (isNull error = false -> xorb (isNull (fst tuple)) (isNull (snd tuple)) = true)
       end.
Proof.
  unfold TryCatch.tryCatch, Async.catch, Async.bind, Async.ret.
  destruct (TryCatch.resolveInput input requestOptions w) as [[value | error] w1].
  - exists (value, JsNull), w1. repeat split. simpl. now intros ->.
  - exists (JsNull, error), w1. repeat split. simpl. now intros ->.
Qed.

(** ** The scenarios of the test suite *)

(** "resolves on first attempt without retrying" *)
Example retry_first_attempt_succeeds :
  exists r,
    Retry.retry (Retry.TargetFunction (Testbed.failsThenOk 0)) Retry.noRetryOptions None
      Testbed.quiet = Some (Fulfilled (JsString "ok"), r)
    /\ Retry.invocations (Retry.trace r) = 1%nat.
Proof.
  eexists. split; [vm_compute; reflexivity | reflexivity].
Qed.

(** "retries failures and eventually returns success" *)
Example retry_second_attempt_succeeds :
  exists r,
    Retry.retry (Retry.TargetFunction (Testbed.failsThenOk 1))
      {| Retry.attempts := Some 2; Retry.delay := Some (Retry.DelayNumber 0);
         Retry.signal := None; Retry.retryable := None |}
      None Testbed.quiet = Some (Fulfilled (JsString "ok"), r)
    /\ Retry.invocations (Retry.trace r) = 2%nat.
Proof.
  eexists. split; [vm_compute; reflexivity | reflexivity].
Qed.

(** "supports URL targets by delegating to fetcher" *)
Example retry_url_target :
  exists r,
    Retry.retry (Retry.TargetValue (JsString "https://example.com"))
      {| Retry.attempts := None; Retry.delay := Some (Retry.DelayNumber 0);
         Retry.signal := None; Retry.retryable := None |}
      None Testbed.quiet
      = Some (Fulfilled (JsObject ObjectPrototype [("hello", JsString "world")]), r)
    /\ Retry.invocations (Retry.trace r) = 1%nat.
Proof.
  eexists. split; [vm_compute; reflexivity | reflexivity].
Qed.

(** "resolves promise-returning thunks" and "captures rejected promises" *)
Example tryCatch_thunks :
  fst (TryCatch.tryCatch (TryCatch.InputFunction (Async.ret (JsString "done"))) None Testbed.quiet)
    = Fulfilled (JsString "done", JsNull)
  /\ fst (TryCatch.tryCatch (TryCatch.InputFunction (Async.throw (new_Error "nope"))) None
            Testbed.quiet)
     = Fulfilled (JsNull, new_Error "nope").
Proof.
  split; reflexivity.
Qed.

(** * Further properties *)

(** ** The ways an iteration of the retry loop can go *)

Section LoopCases.

Context {World : Type} `{Platform World}.

(** An induction principle along the run of the loop. [Q attempt events out]
    is established for the events produced from an iteration entered with
    counter [attempt] and the outcome of the call, from the five ways an
    iteration can go: success; failure seen under an aborted signal;
    failure that is not retried; failure followed by a cancelled delay;
    failure followed by a completed delay and the rest of the run. *)
Lemma retryLoop_cases (target : Retry.RetryTarget World) (requestOptions : option RequestOptions)
    (attempts : Z) (delay : Retry.Delay World) (signal : option (AbortSignal World))
    (retryable : JsValue -> Z -> bool)
    (Q : Z -> list Retry.Event -> Outcome JsValue -> Prop) :
  (forall attempt value,
      0 <= attempt < attempts ->
      Q attempt [Retry.Invoked (Fulfilled value)] (Fulfilled value)) ->
  (forall attempt error w1,
      0 <= attempt < attempts ->
      Retry.signalAborted signal w1 = true ->
      Q attempt [Retry.Invoked (Rejected error)]
        (Rejected (nullish_coalesce (Retry.signalReason signal w1) error))) ->
  (forall attempt error,
      0 <= attempt < attempts ->
      (attempt + 1 <? attempts) && retryable error (attempt + 1) = false ->
      Q attempt [Retry.Invoked (Rejected error)] (Rejected error)) ->
  (forall attempt error r1 w3,
      0 <= attempt -> attempt + 1 < attempts ->
      retryable error (attempt + 1) = true ->
      Retry.signalAborted signal w3 = true ->
      Q attempt
        [Retry.Invoked (Rejected error);
         Retry.Waited (fst (Retry.delayFor delay (attempt + 1) r1))
           (Rejected (Retry.signalReason signal w3))]
        (Rejected (Retry.signalReason signal w3))) ->
  (forall attempt error r1 rest out,
      0 <= attempt -> attempt + 1 < attempts ->
      retryable error (attempt + 1) = true ->
      Q (attempt + 1) rest out ->
      Q attempt
        (Retry.Invoked (Rejected error)
         :: Retry.Waited (fst (Retry.delayFor delay (attempt + 1) r1)) (Fulfilled tt)
         :: rest) out) ->
  forall fuel attempt lastError r,
    0 <= attempt < attempts ->
    (Z.to_nat (attempts - attempt) < fuel)%nat ->
    exists out r' events,
      Retry.retryLoop target requestOptions attempts delay signal retryable
        fuel attempt lastError r = Some (out, r')
      /\ Retry.trace r' = Retry.trace r ++ events
      /\ Q attempt events out.
Proof.
  intros Hsuccess Haborted Hstop Hcancelled Hagain.
  induction fuel as [| fuel IH]; intros attempt lastError r Hrange Hfuel; [lia |].
  simpl. destruct (Z.ltb_spec attempt attempts) as [_ | Hge]; [| lia].
  unfold Retry.invoke.
  destruct (Retry.resolveTarget target requestOptions (Retry.world r)) as [[value | error] w1].
  { eexists _, _, [_]. split; [reflexivity |]. split; [reflexivity |]. now apply Hsuccess. }
  simpl. destruct (Retry.signalAborted signal w1) eqn:Habort.
  { eexists _, _, [_]. split; [reflexivity |]. split; [reflexivity |]. now apply Haborted. }
  destruct ((attempt + 1 <? attempts) && retryable error (attempt + 1)) eqn:Hgo; simpl.
  2:{ eexists _, _, [_]. split; [reflexivity |]. split; [reflexivity |]. now apply Hstop. }
  apply andb_true_iff in Hgo as [Hmore Hyes]. apply Z.ltb_lt in Hmore.
  set (r1 := {| Retry.world := w1;
                Retry.trace := Retry.trace r ++ [Retry.Invoked (Rejected error)] |}).
  pose proof (delayFor_trace delay (attempt + 1) r1) as Htrace.
  remember (Retry.delayFor delay (attempt + 1) r1) as computed eqn:Hms.
  destruct computed as [delayMs r2]. simpl in Htrace.
  apply (f_equal fst) in Hms. simpl in Hms.
  unfold Retry.await_wait.
  destruct (Retry.wait delayMs signal (Retry.world r2)) as [[[] | c] w3] eqn:Hwait.
  - set (r3 := {| Retry.world := w3;
                  Retry.trace := Retry.trace r2 ++ [Retry.Waited delayMs (Fulfilled tt)] |}).
    destruct (IH (attempt + 1) error r3) as (out & r' & events & Hrun & Hev & HQ); [lia | lia |].
    exists out, r', (Retry.Invoked (Rejected error) :: Retry.Waited delayMs (Fulfilled tt) :: events).
    split; [exact Hrun |]. split.
    + rewrite Hev. subst r3. simpl. rewrite Htrace. subst r1. simpl.
      now rewrite <- !app_assoc.
    + rewrite Hms. apply Hagain; [lia | lia | exact Hyes | exact HQ].
  - destruct (wait_rejected delayMs signal (Retry.world r2) w3 c Hwait) as [Hab ->].
    eexists _, _, [_; _]. split; [reflexivity |]. split.
    + simpl. rewrite Htrace. subst r1. simpl. now rewrite <- app_assoc.
    + rewrite Hms. apply Hcancelled; [lia | lia | exact Hyes | exact Hab].
Qed.

(** The same for a whole call of [retry] with a valid [attempts]. *)
Lemma retry_cases (target : Retry.RetryTarget World) (retryOptions : Retry.RetryOptions World)
    (requestOptions : option RequestOptions) (w : World)
    (Q : Z -> list Retry.Event -> Outcome JsValue -> Prop) :
  (forall attempt value,
      0 <= attempt < Retry.attemptsOf retryOptions ->
      Q attempt [Retry.Invoked (Fulfilled value)] (Fulfilled value)) ->
  (forall attempt error w1,
      0 <= attempt < Retry.attemptsOf retryOptions ->
      Retry.signalAborted (Retry.signal retryOptions) w1 = true ->
      Q attempt [Retry.Invoked (Rejected error)]
        (Rejected (nullish_coalesce (Retry.signalReason (Retry.signal retryOptions) w1) error))) ->
  (forall attempt error,
      0 <= attempt < Retry.attemptsOf retryOptions ->
      (attempt + 1 <? Retry.attemptsOf retryOptions)
        && Retry.retryableOf retryOptions error (attempt + 1) = false ->
      Q attempt [Retry.Invoked (Rejected error)] (Rejected error)) ->
  (forall attempt error r1 w3,
      0 <= attempt -> attempt + 1 < Retry.attemptsOf retryOptions ->
      Retry.retryableOf retryOptions error (attempt + 1) = true ->
      Retry.signalAborted (Retry.signal retryOptions) w3 = true ->
      Q attempt
        [Retry.Invoked (Rejected error);
         Retry.Waited (fst (Retry.delayFor (Retry.delayOf retryOptions) (attempt + 1) r1))
           (Rejected (Retry.signalReason (Retry.signal retryOptions) w3))]
        (Rejected (Retry.signalReason (Retry.signal retryOptions) w3))) ->
  (forall attempt error r1 rest out,
      0 <= attempt -> attempt + 1 < Retry.attemptsOf retryOptions ->
      Retry.retryableOf retryOptions error (attempt + 1) = true ->
      Q (attempt + 1) rest out ->
      Q attempt
        (Retry.Invoked (Rejected error)
         :: Retry.Waited (fst (Retry.delayFor (Retry.delayOf retryOptions) (attempt + 1) r1))
              (Fulfilled tt)
         :: rest) out) ->
  1 <= Retry.attemptsOf retryOptions ->
  exists out r,
    Retry.retry target retryOptions requestOptions w = Some (out, r)
    /\ Q 0 (Retry.trace r) out.
Proof.
  intros Hsuccess Haborted Hstop Hcancelled Hagain Hvalid. unfold Retry.retry.
  destruct (Z.ltb_spec (Retry.attemptsOf retryOptions) 1) as [Hbad | _]; [lia |].
  destruct (retryLoop_cases target requestOptions (Retry.attemptsOf retryOptions)
              (Retry.delayOf retryOptions) (Retry.signal retryOptions)
              (Retry.retryableOf retryOptions) Q
              Hsuccess Haborted Hstop Hcancelled Hagain
              (S (Z.to_nat (Retry.attemptsOf retryOptions))) 0 JsUndefined (Retry.start w))
    as (out & r & events & Hrun & Hev & HQ); [lia | lia |].
  exists out, r. split; [exact Hrun |]. simpl in Hev. now subst events.
Qed.

End LoopCases.

(** ** What every call of [retry] keeps *)

Lemma invocations_Invoked (result : Outcome JsValue) (events : list Retry.Event) :
  Retry.invocations (Retry.Invoked result :: events) = S (Retry.invocations events).
Proof. reflexivity. Qed.

Lemma invocations_Waited (ms : Z) (result : Outcome unit) (events : list Retry.Event) :
  Retry.invocations (Retry.Waited ms result :: events) = Retry.invocations events.
Proof. reflexivity. Qed.

Lemma invocations_nil : Retry.invocations [] = 0%nat.
Proof. reflexivity. Qed.

(** X1. For an integral [attempts >= 1], a target whose promise settles and
    a predicate and delay function that return normally, a call invokes the
    target at least once and at most [attempts] times and starts at most
    [attempts - 1] delays, whatever the outcomes of the invocations, the
    answers of the predicate and the state of the signal. *)
Theorem retry_invocation_bounds {World : Type} `{Platform World}
    (target : Retry.RetryTarget World) (retryOptions : Retry.RetryOptions World)
    (requestOptions : option RequestOptions) (w : World) :
  1 <= Retry.attemptsOf retryOptions ->
  exists out r,
    Retry.retry target retryOptions requestOptions w = Some (out, r)
    /\ 1 <= Z.of_nat (Retry.invocations (Retry.trace r)) <= Retry.attemptsOf retryOptions
    /\ Z.of_nat (length (Observed.waitDurations (Retry.trace r)))
       <= Retry.attemptsOf retryOptions - 1.
Proof.
  intros Hvalid.
  destruct (retry_cases target retryOptions requestOptions w
              (fun attempt events _ =>
                 1 <= Z.of_nat (Retry.invocations events)
                   <= Retry.attemptsOf retryOptions - attempt
                 /\ Z.of_nat (length (Observed.waitDurations events))
                    <= Retry.attemptsOf retryOptions - attempt - 1))
    as (out & r & Hrun & Hinv & Hwaits); try exact Hvalid.
  - intros attempt value Hrange.
    rewrite invocations_Invoked, invocations_nil. cbn. lia.
  - intros attempt error w1 Hrange _.
    rewrite invocations_Invoked, invocations_nil. cbn. lia.
  - intros attempt error Hrange _.
    rewrite invocations_Invoked, invocations_nil. cbn. lia.
  - intros attempt error r1 w3 Hpos Hmore _ _.
    rewrite invocations_Invoked, invocations_Waited, invocations_nil. cbn. lia.
  - intros attempt error r1 rest out Hpos Hmore _ [Hinv Hwaits].
    rewrite invocations_Invoked, invocations_Waited.
    cbn [Observed.waitDurations length]. lia.
  - exists out, r. split; [exact Hrun |]. split; lia.
Qed.

Lemma retry_invocation_bounds_witness :
  exists out r,
    Retry.retry (Retry.TargetFunction (Testbed.failsThenOk 1))
      {| Retry.attempts := Some 4; Retry.delay := Some (Retry.DelayNumber 10);
         Retry.signal := None; Retry.retryable := None |} None Testbed.quiet = Some (out, r)
    /\ 1 <= Z.of_nat (Retry.invocations (Retry.trace r)) <= 4
    /\ Z.of_nat (length (Observed.waitDurations (Retry.trace r))) <= 3.
Proof.
  apply (retry_invocation_bounds (Retry.TargetFunction (Testbed.failsThenOk 1))
           {| Retry.attempts := Some 4; Retry.delay := Some (Retry.DelayNumber 10);
              Retry.signal := None; Retry.retryable := None |} None Testbed.quiet).
  vm_compute. discriminate.
Defined.

(** X2. The events of a call with [attempts >= 1] are strictly sequential:
    failed invocations alternate with completed delays, and the call ends
    either with an invocation or with a delay that was cancelled. The call
    resolves to a value exactly when its last event is the invocation that
    resolved to that value. *)
Theorem retry_runs_sequentially {World : Type} `{Platform World}
    (target : Retry.RetryTarget World) (retryOptions : Retry.RetryOptions World)
    (requestOptions : option RequestOptions) (w : World) :
  1 <= Retry.attemptsOf retryOptions ->
  exists out r,
    Retry.retry target retryOptions requestOptions w = Some (out, r)
    /\ Observed.sequential (Retry.trace r) = true
    /\ forall value,
         out = Fulfilled value <-> last (Retry.trace r) = Some (Retry.Invoked (Fulfilled value)).
Proof.
  intros Hvalid.
  apply (retry_cases target retryOptions requestOptions w
           (fun _ events out =>
              Observed.sequential events = true
              /\ forall value,
                   out = Fulfilled value <-> last events = Some (Retry.Invoked (Fulfilled value))));
    try exact Hvalid.
  - intros attempt value _. split; [reflexivity |].
    intros value'. cbn. split; intros [= ->]; reflexivity.
  - intros attempt error w1 _ _. split; [reflexivity |].
    intros value. cbn. split; discriminate.
  - intros attempt error _ _. split; [reflexivity |].
    intros value. cbn. split; discriminate.
  - intros attempt error r1 w3 _ _ _ _. split; [reflexivity |].
    intros value. cbn. split; discriminate.
  - intros attempt error r1 rest out _ _ _ [Hseq Hlast]. split; [exact Hseq |].
    intros value. rewrite Hlast.
    destruct rest as [| ev rest']; [discriminate |].
    now rewrite !last_cons_cons.
Qed.

Lemma retry_runs_sequentially_witness :
  exists out r,
    Retry.retry (Retry.TargetFunction (Testbed.failsThenOk 2))
      {| Retry.attempts := Some 3; Retry.delay := None;
         Retry.signal := None; Retry.retryable := None |} None Testbed.quiet = Some (out, r)
    /\ Observed.sequential (Retry.trace r) = true
    /\ forall value,
         out = Fulfilled value <-> last (Retry.trace r) = Some (Retry.Invoked (Fulfilled value)).
Proof.
  apply (retry_runs_sequentially (Retry.TargetFunction (Testbed.failsThenOk 2))
           {| Retry.attempts := Some 3; Retry.delay := None;
              Retry.signal := None; Retry.retryable := None |} None Testbed.quiet).
  vm_compute. discriminate.
Defined.

(** The error a loop fails with is the error of its last invocation, or
    the reason of the signal as it is aborted in the world the call ends
    in. *)
Lemma retryLoop_provenance {World : Type} `{Platform World}
    (target : Retry.RetryTarget World) (requestOptions : option RequestOptions)
    (attempts : Z) (delay : Retry.Delay World) (signal : option (AbortSignal World))
    (retryable : JsValue -> Z -> bool) :
  forall fuel attempt lastError r,
    0 <= attempt < attempts ->
    (Z.to_nat (attempts - attempt) < fuel)%nat ->
    exists out r' events,
      Retry.retryLoop target requestOptions attempts delay signal retryable
        fuel attempt lastError r = Some (out, r')
      /\ Retry.trace r' = Retry.trace r ++ events
      /\ forall error,
           out = Rejected error ->
           Retry.lastInvocationError events = Some error
           \/ (Retry.signalAborted signal (Retry.world r') = true
               /\ error = Retry.signalReason signal (Retry.world r')).
Proof.
  induction fuel as [| fuel IH]; intros attempt lastError r Hrange Hfuel; [lia |].
  simpl. destruct (Z.ltb_spec attempt attempts) as [_ | Hge]; [| lia].
  unfold Retry.invoke.
  destruct (Retry.resolveTarget target requestOptions (Retry.world r)) as [[value | error] w1].
  { eexists _, _, [_]. split; [reflexivity |]. split; [reflexivity |]. intros error [=]. }
  simpl. destruct (Retry.signalAborted signal w1) eqn:Habort.
  { eexists _, _, [_]. split; [reflexivity |]. split; [reflexivity |].
    intros error' [= <-]. simpl. unfold nullish_coalesce.
    destruct (isNullish (Retry.signalReason signal w1)); [left; reflexivity | right; auto]. }
  destruct ((attempt + 1 <? attempts) && retryable error (attempt + 1)) eqn:Hgo; simpl.
  2:{ eexists _, _, [_]. split; [reflexivity |]. split; [reflexivity |].
      intros error' [= <-]. left. reflexivity. }
  apply andb_true_iff in Hgo as [Hmore Hyes]. apply Z.ltb_lt in Hmore.
  set (r1 := {| Retry.world := w1;
                Retry.trace := Retry.trace r ++ [Retry.Invoked (Rejected error)] |}).
  pose proof (delayFor_trace delay (attempt + 1) r1) as Htrace.
  destruct (Retry.delayFor delay (attempt + 1) r1) as [delayMs r2]. simpl in Htrace.
  unfold Retry.await_wait.
  destruct (Retry.wait delayMs signal (Retry.world r2)) as [[[] | c] w3] eqn:Hwait.
  - set (r3 := {| Retry.world := w3;
                  Retry.trace := Retry.trace r2 ++ [Retry.Waited delayMs (Fulfilled tt)] |}).
    destruct (IH (attempt + 1) error r3) as (out & r' & events & Hrun & Hev & Hfrom); [lia | lia |].
    exists out, r', (Retry.Invoked (Rejected error) :: Retry.Waited delayMs (Fulfilled tt) :: events).
    split; [exact Hrun |]. split.
    + rewrite Hev. subst r3. simpl. rewrite Htrace. subst r1. simpl.
      now rewrite <- !app_assoc.
    + intros error' Hout. destruct (Hfrom error' Hout) as [Hlast | Hreason]; [left | now right].
      now apply (lastInvocationError_app [_; _]).
  - destruct (wait_rejected delayMs signal (Retry.world r2) w3 c Hwait) as [Hab ->].
    eexists _, _, [_; _]. split; [reflexivity |]. split.
    + simpl. rewrite Htrace. subst r1. simpl. now rewrite <- app_assoc.
    + intros error' [= <-]. right. auto.
Qed.

(** X3. With a predicate and a delay function that return normally,
    [retry] invents no error: when a call with [attempts >= 1] fails, it
    fails either with the error of the last invocation of the target, or
    with the reason of the signal, the signal being aborted in the world in
    which the call ends. *)
Theorem retry_failure_provenance {World : Type} `{Platform World}
    (target : Retry.RetryTarget World) (retryOptions : Retry.RetryOptions World)
    (requestOptions : option RequestOptions) (w : World) :
  1 <= Retry.attemptsOf retryOptions ->
  exists out r,
    Retry.retry target retryOptions requestOptions w = Some (out, r)
    /\ forall error,
         out = Rejected error ->
         Retry.lastInvocationError (Retry.trace r) = Some error
         \/ (Retry.signalAborted (Retry.signal retryOptions) (Retry.world r) = true
             /\ error = Retry.signalReason (Retry.signal retryOptions) (Retry.world r)).
Proof.
  intros Hvalid. unfold Retry.retry.
  destruct (Z.ltb_spec (Retry.attemptsOf retryOptions) 1) as [Hbad | _]; [lia |].
  destruct (retryLoop_provenance target requestOptions (Retry.attemptsOf retryOptions)
              (Retry.delayOf retryOptions) (Retry.signal retryOptions)
              (Retry.retryableOf retryOptions)
              (S (Z.to_nat (Retry.attemptsOf retryOptions))) 0 JsUndefined (Retry.start w))
    as (out & r & events & Hrun & Hev & Hfrom); [lia | lia |].
  exists out, r. split; [exact Hrun |]. simpl in Hev. now subst events.
Qed.

(** Two attempts, the controller aborted during the delay between them. *)
Lemma retry_failure_provenance_witness :
  let w := {| Testbed.now := 0; Testbed.calls := 0;
              Testbed.abortAt := Some (3, JsString "cancelled"); Testbed.nextRandom := 0 |} in
  exists out r,
    Retry.retry (Retry.TargetFunction Testbed.alwaysFails)
      {| Retry.attempts := Some 2; Retry.delay := Some (Retry.DelayNumber 5);
         Retry.signal := Some Testbed.controllerSignal; Retry.retryable := None |}
      None w = Some (out, r)
    /\ forall error,
         out = Rejected error ->
         Retry.lastInvocationError (Retry.trace r) = Some error
         \/ (aborted Testbed.controllerSignal (Retry.world r) = true
             /\ error = reason Testbed.controllerSignal (Retry.world r)).
Proof.
  intros w.
  apply (retry_failure_provenance (Retry.TargetFunction Testbed.alwaysFails)
           {| Retry.attempts := Some 2; Retry.delay := Some (Retry.DelayNumber 5);
              Retry.signal := Some Testbed.controllerSignal; Retry.retryable := None |}
           None w).
  vm_compute. discriminate.
Defined.



(** X5. A delay function is consulted with the counters 1, 2, 3, ... in
    that order, once per delay, and what it returns is the duration of the
    delay, unclamped: the durations of the delays of a call are the values
    of the function at 1, 2, ..., as many as there were delays. *)
Theorem retry_delay_function_counters {World : Type} `{Platform World}
    (target : Retry.RetryTarget World) (retryOptions : Retry.RetryOptions World)
    (requestOptions : option RequestOptions) (w : World) (g : Z -> Z) :
  1 <= Retry.attemptsOf retryOptions ->
  Retry.delay retryOptions = Some (Retry.DelayFunction (fun attempt w0 => (g attempt, w0))) ->
  exists out r,
    Retry.retry target retryOptions requestOptions w = Some (out, r)
    /\ Observed.waitDurations (Retry.trace r)
       = g <$> seqZ 1 (Z.of_nat (length (Observed.waitDurations (Retry.trace r)))).
Proof.
  intros Hvalid Hdelay.
  apply (retry_cases target retryOptions requestOptions w
           (fun attempt events _ =>
              Observed.waitDurations events
              = g <$> seqZ (attempt + 1) (Z.of_nat (length (Observed.waitDurations events)))));
    try exact Hvalid; unfold Retry.delayOf; rewrite ?Hdelay; cbn [Observed.waitDurations].
  - reflexivity.
  - reflexivity.
  - reflexivity.
  - intros attempt error r1 w3 _ _ _ _. reflexivity.
  - intros attempt error r1 rest out _ _ _ IH.
    cbn [Retry.delayFor fst length]. rewrite seqZ_cons by lia.
    rewrite fmap_cons. f_equal.
    replace (Z.pred (Z.of_nat (S (length (Observed.waitDurations rest)))))
      with (Z.of_nat (length (Observed.waitDurations rest))) by lia.
    exact IH.
Qed.

Lemma retry_delay_function_counters_witness :
  exists out r,
    Retry.retry (Retry.TargetFunction Testbed.alwaysFails)
      {| Retry.attempts := Some 4;
         Retry.delay := Some (Retry.DelayFunction (fun attempt w0 => (100 * attempt - 500, w0)));
         Retry.signal := None; Retry.retryable := None |} None Testbed.quiet = Some (out, r)
    /\ Observed.waitDurations (Retry.trace r)
       = (fun attempt => 100 * attempt - 500)
           <$> seqZ 1 (Z.of_nat (length (Observed.waitDurations (Retry.trace r)))).
Proof.
  apply (retry_delay_function_counters (Retry.TargetFunction Testbed.alwaysFails)
           {| Retry.attempts := Some 4;
              Retry.delay := Some (Retry.DelayFunction (fun attempt w0 => (100 * attempt - 500, w0)));
              Retry.signal := None; Retry.retryable := None |} None Testbed.quiet
           (fun attempt => 100 * attempt - 500)).
  - vm_compute. discriminate.
  - reflexivity.
Defined.

(** ** The default backoff at every attempt *)

Lemma Qfloor_half (z : Z) : Qfloor (inject_Z z + (1 # 2)) = z.
Proof.
  unfold Qfloor, inject_Z, Qplus. simpl.
  rewrite Z.mul_1_r. rewrite Z.div_add_l by lia.
  change (1 `div` Z.pos (1 * 2)) with 0. lia.
Qed.

Lemma defaultDelay_between {World : Type} `{Platform World} (n : Z) (w : World) :
  0 <= n ->
  (0 <= fst (Math_random w))%Q ->
  (fst (Math_random w) < 1)%Q ->
  170 * 2 ^ n <= fst (Retry.defaultDelay n w) <= 230 * 2 ^ n.
Proof.
  intros Hn Hlow Hhigh. unfold Retry.defaultDelay.
  destruct (Math_random w) as [random w']. simpl in *.
  unfold Retry.Math_round.
  assert (Hpow : (Qpower 2 n == inject_Z (2 ^ n))%Q).
  { symmetry. apply (Zpower_Qpower 2 n Hn). }
  assert (Hpos : (0 < inject_Z (2 ^ n))%Q).
  { rewrite <- Hpow. now apply Qpower_0_lt. }
  rewrite Hpow.
  set (P := inject_Z (2 ^ n)) in *.
  split.
  - rewrite <- (Qfloor_Z (170 * 2 ^ n)). apply Qfloor_resp_le.
    rewrite inject_Z_mult. fold P. change (inject_Z 170) with 170%Q. nra.
  - rewrite <- (Qfloor_half (230 * 2 ^ n)) at 1. apply Qfloor_resp_le.
    rewrite inject_Z_mult. fold P. change (inject_Z 230) with 230%Q. nra.
Qed.

(** X6. For the attempt indices 0 to 22, where every quantity is an
    integer below 2^31, the default delay stays within 15% of [200 * 2^n]:
    it lies in [170 * 2^n, 230 * 2^n]. The jitter therefore does not
    reorder the backoff: the delay for attempt [n + 1] is longer than the
    delay for attempt [n], whatever the two random draws. *)
Theorem defaultDelay_grows {World : Type} `{Platform World} (n : Z) (w w' : World) :
  0 <= n <= 22 ->
  (0 <= fst (Math_random w) /\ fst (Math_random w) < 1)%Q ->
  (0 <= fst (Math_random w') /\ fst (Math_random w') < 1)%Q ->
  170 * 2 ^ n <= fst (Retry.defaultDelay n w) <= 230 * 2 ^ n
  /\ fst (Retry.defaultDelay n w) < fst (Retry.defaultDelay (n + 1) w')
  /\ fst (Retry.defaultDelay (n + 1) w') < 2 ^ 31.
Proof.
  intros Hn [Hlow Hhigh] [Hlow' Hhigh'].
  pose proof (defaultDelay_between n w ltac:(lia) Hlow Hhigh) as Hthis.
  pose proof (defaultDelay_between (n + 1) w' ltac:(lia) Hlow' Hhigh') as Hnext.
  split; [exact Hthis |].
  assert (0 < 2 ^ n) by (apply Z.pow_pos_nonneg; lia).
  assert (2 ^ (n + 1) <= 2 ^ 23) by (apply Z.pow_le_mono_r; lia).
  change (2 ^ 23) with 8388608 in *. change (2 ^ 31) with 2147483648.
  rewrite Z.pow_add_r in * by lia. change (2 ^ 1) with 2 in *.
  lia.
Qed.

Lemma defaultDelay_grows_witness :
  let early := {| Testbed.now := 0; Testbed.calls := 0; Testbed.abortAt := None;
                  Testbed.nextRandom := (99 # 100) |} in
  170 * 2 ^ 3 <= fst (Retry.defaultDelay 3 early) <= 230 * 2 ^ 3
  /\ fst (Retry.defaultDelay 3 early) < fst (Retry.defaultDelay (3 + 1) Testbed.quiet)
  /\ fst (Retry.defaultDelay (3 + 1) Testbed.quiet) < 2 ^ 31.
Proof.
  intros early.
  apply (defaultDelay_grows 3 early Testbed.quiet).
  - lia.
  - split; [vm_compute; discriminate | reflexivity].
  - split; [vm_compute; discriminate | reflexivity].
Defined.

(** ** The predicate, the signal and a success *)

Section PredicateFacts.

Context {World : Type} `{Platform World}.

Lemma retryLoop_retryable_ext (target : Retry.RetryTarget World)
    (requestOptions : option RequestOptions) (attempts : Z) (delay : Retry.Delay World)
    (signal : option (AbortSignal World)) (p q : JsValue -> Z -> bool) :
  (forall error k, 1 <= k < attempts -> p error k = q error k) ->
  forall fuel attempt lastError r,
    0 <= attempt ->
    Retry.retryLoop target requestOptions attempts delay signal p fuel attempt lastError r
    = Retry.retryLoop target requestOptions attempts delay signal q fuel attempt lastError r.
Proof.
  intros Hagree. induction fuel as [| fuel IH]; intros attempt lastError r Hpos; [reflexivity |].
  simpl. destruct (attempt <? attempts); [| reflexivity].
  destruct (Retry.invoke target requestOptions r) as [[value | error] r1]; [reflexivity |].
  destruct (Retry.signalAborted signal (Retry.world r1)); [reflexivity |].
  assert (Hsame : (attempt + 1 <? attempts) && p error (attempt + 1)
                  = (attempt + 1 <? attempts) && q error (attempt + 1)).
  { destruct (Z.ltb_spec (attempt + 1) attempts) as [Hlt | _]; [| reflexivity].
    simpl. apply Hagree. lia. }
  rewrite Hsame.
  destruct ((attempt + 1 <? attempts) && q error (attempt + 1)); simpl; [| reflexivity].
  destruct (Retry.delayFor delay (attempt + 1) r1) as [delayMs r2].
  destruct (Retry.await_wait delayMs signal r2) as [[[] | c] r3]; [| reflexivity].
  apply IH. lia.
Qed.

End PredicateFacts.

(** X7. The predicate is only ever consulted with the counters
    [1 .. attempts - 1]: two predicates that agree there give the same call,
    outcome, final world and events alike. In particular what a predicate
    says at 0 or at [attempts] and beyond is never looked at. *)
Theorem retry_consults_predicate_below_attempts {World : Type} `{Platform World}
    (target : Retry.RetryTarget World) (requestOptions : option RequestOptions)
    (attempts : option Z) (delay : option (Retry.Delay World))
    (signal : option (AbortSignal World)) (p q : JsValue -> Z -> bool) (w : World) :
  (forall error k, 1 <= k < default 3 attempts -> p error k = q error k) ->
  Retry.retry target
    {| Retry.attempts := attempts; Retry.delay := delay;
       Retry.signal := signal; Retry.retryable := Some p |} requestOptions w
  = Retry.retry target
      {| Retry.attempts := attempts; Retry.delay := delay;
         Retry.signal := signal; Retry.retryable := Some q |} requestOptions w.
Proof.
  intros Hagree. unfold Retry.retry, Retry.attemptsOf, Retry.delayOf, Retry.retryableOf.
  cbn [Retry.attempts Retry.delay Retry.signal Retry.retryable].
  destruct (default 3 attempts <? 1); [reflexivity |].
  apply retryLoop_retryable_ext; [exact Hagree | lia].
Qed.

(** The predicate of the test suite, [attempt === 0], behaves as "never". *)
Lemma retry_consults_predicate_below_attempts_witness :
  Retry.retry (Retry.TargetFunction Testbed.alwaysFails)
    {| Retry.attempts := Some 3; Retry.delay := Some (Retry.DelayNumber 0);
       Retry.signal := None; Retry.retryable := Some (fun _ attempt => attempt =? 0) |}
    None Testbed.quiet
  = Retry.retry (Retry.TargetFunction Testbed.alwaysFails)
      {| Retry.attempts := Some 3; Retry.delay := Some (Retry.DelayNumber 0);
         Retry.signal := None; Retry.retryable := Some (fun _ _ => false) |}
      None Testbed.quiet.
Proof.
  apply (retry_consults_predicate_below_attempts (Retry.TargetFunction Testbed.alwaysFails) None
           (Some 3) (Some (Retry.DelayNumber 0)) None
           (fun _ attempt => attempt =? 0) (fun _ _ => false) Testbed.quiet).
  intros error k Hk. apply Z.eqb_neq. lia.
Defined.

(** X8. A success is never overridden by the signal: whenever a call stands
    at the top of its loop with attempts left and the invocation of the
    target resolves, the call resolves to that value with no further event,
    whether or not the signal is aborted by then (the signal is read only
    after a failure and by the delay). *)
Theorem retry_success_ignores_signal {World : Type} `{Platform World}
    (target : Retry.RetryTarget World) (retryOptions : Retry.RetryOptions World)
    (requestOptions : option RequestOptions) (w : World)
    (attempt : Z) (lastError : JsValue) (r : Retry.Run World)
    (value : JsValue) (w1 : World) :
  Retry.atLoopTop target retryOptions requestOptions w attempt lastError r ->
  attempt < Retry.attemptsOf retryOptions ->
  Retry.resolveTarget target requestOptions (Retry.world r) = (Fulfilled value, w1) ->
  Retry.retry target retryOptions requestOptions w =
  Some (Fulfilled value,
        {| Retry.world := w1;
           Retry.trace := Retry.trace r ++ [Retry.Invoked (Fulfilled value)] |}).
Proof.
  intros Htop Hlt Hcall.
  destruct (atLoopTop_resumes target retryOptions requestOptions w attempt lastError r Htop)
    as [Hpos Hresume].
  unfold Retry.retry.
  destruct (Z.ltb_spec (Retry.attemptsOf retryOptions) 1) as [Hbad | _]; [lia |].
  replace (S (Z.to_nat (Retry.attemptsOf retryOptions)))
    with (Z.to_nat attempt + S (Z.to_nat (Retry.attemptsOf retryOptions - attempt)))%nat by lia.
  rewrite Hresume. simpl.
  apply Z.ltb_lt in Hlt. rewrite Hlt. unfold Retry.invoke. now rewrite Hcall.
Qed.

(** The signal is aborted before the call is made; the literal target still
    resolves. *)
Lemma retry_success_ignores_signal_witness :
  let w := {| Testbed.now := 7; Testbed.calls := 0;
              Testbed.abortAt := Some (0, JsString "cancelled"); Testbed.nextRandom := 0 |} in
  let options := {| Retry.attempts := None; Retry.delay := None;
                    Retry.signal := Some Testbed.controllerSignal; Retry.retryable := None |} in
  aborted Testbed.controllerSignal w = true
  /\ Retry.retry (Retry.TargetValue (JsNumber 42)) options None w
     = Some (Fulfilled (JsNumber 42),
             {| Retry.world := w; Retry.trace := [Retry.Invoked (Fulfilled (JsNumber 42))] |}).
Proof.
  intros w options. split; [reflexivity |].
  apply (retry_success_ignores_signal (Retry.TargetValue (JsNumber 42)) options None w
           0 JsUndefined (Retry.start w) (JsNumber 42) w).
  - apply Retry.atLoopTop_start.
  - reflexivity.
  - reflexivity.
Defined.

(** ** More on the fetcher *)

Section TrimFacts.

Lemma trimStart_head (s rest : string) (c : ascii) :
  trimStart s = String c rest -> isWhiteSpace c = false.
Proof.
  induction s as [| a s IH]; simpl; [discriminate |].
  destruct (isWhiteSpace a) eqn:Ha; [exact IH |].
  now intros [= <- _].
Qed.

Lemma trimEnd_head (s rest : string) (c : ascii) :
  trimEnd s = String c rest -> exists rest', s = String c rest'.
Proof.
  destruct s as [| a s]; simpl; [discriminate |].
  destruct (trimEnd s); [destruct (isWhiteSpace a); [discriminate |] |];
    intros [= <- _]; eauto.
Qed.

Lemma trimEnd_inked (c : ascii) (rest : string) :
  isWhiteSpace c = false -> nonEmpty (trimEnd (String c rest)) = true.
Proof.
  intros Hc. simpl. destruct (trimEnd rest); [now rewrite Hc | reflexivity].
Qed.

(** What is left by [trim], if anything, still has something in it after
    another [trim]. *)
Lemma trim_not_blank (s : string) :
  nonEmpty (trim s) = true -> nonEmpty (trim (trim s)) = true.
Proof.
  unfold trim at 1 3. destruct (trimEnd (trimStart s)) as [| c rest] eqn:Htrimmed; [discriminate |].
  intros _.
  destruct (trimEnd_head _ _ _ Htrimmed) as [rest' Hstart].
  pose proof (trimStart_head _ _ _ Hstart) as Hc.
  unfold trim. simpl. rewrite Hc. now apply trimEnd_inked.
Qed.

End TrimFacts.

Section MoreFetcherFacts.

Context {World : Type} `{Platform World}.

Lemma extractErrorMessage_not_blank (value : JsValue) (message : string) :
  Fetcher.extractErrorMessage value = Some message -> nonEmpty (trim message) = true.
Proof.
  destruct value as [| | b | n | s | items | proto props]; simpl; try discriminate.
  - destruct (nonEmpty (trim s)) eqn:Hs; [| discriminate]. now intros [= <-].
  - destruct (get_prop "message" props) as [[| | b | n | m | items | proto' props'] |];
      try discriminate.
    destruct (nonEmpty (trim m)) eqn:Hm; [| discriminate].
    intros [= <-]. now apply trim_not_blank.
Qed.

Lemma httpErrorMessage_not_blank (status : Z) :
  nonEmpty (trim (Fetcher.httpErrorMessage status)) = true.
Proof.
  unfold Fetcher.httpErrorMessage, trim.
  change ("HTTP error! Status: " +:+ pretty status)
    with (String "H" ("TTP error! Status: " +:+ pretty status)).
  change (trimStart (String "H" ("TTP error! Status: " +:+ pretty status)))
    with (String "H" ("TTP error! Status: " +:+ pretty status)).
  now apply trimEnd_inked.
Qed.

(** What [fetcher] makes of a response that is not [ok]. *)
Lemma fetcher_not_ok (url : string) (options : option RequestOptions) (w : World)
    (response : Response World) (w1 : World) :
  fetch url (Fetcher.buildRequest options) w = (Fulfilled response, w1) ->
  ok response = false ->
  exists message w2,
    Fetcher.fetcher url options w = (Rejected (new_Error message), w2)
    /\ nonEmpty (trim message) = true.
Proof.
  intros Hfetch Hok. rewrite fetcher_unfold, Hfetch.
  unfold Fetcher.readResponse. rewrite Hok. cbn [negb].
  unfold Async.bind, Async.throw. rewrite errorMessageOf_spec.
  destruct (json response w1) as [[data | decodeError] w2].
  - eexists _, w2. split; [reflexivity |].
    destruct (Fetcher.extractErrorMessage data) as [message |] eqn:Hextract.
    + now apply (extractErrorMessage_not_blank data).
    + apply httpErrorMessage_not_blank.
  - eexists _, w2. split; [reflexivity |]. apply httpErrorMessage_not_blank.
Qed.

(** The conditions under which a response counts as having no content. *)
Lemma responseHasNoContent_iff (method : HttpMethod) (response : Response World) :
  Fetcher.responseHasNoContent method response = true <->
  method = HEAD \/ status response = 204 \/ status response = 205 \/ status response = 304
  \/ exists length,
       Headers.get (resp_headers response) "content-length" = Some length
       /\ trim length = "0".
Proof.
  unfold Fetcher.responseHasNoContent.
  rewrite !orb_true_iff, !Z.eqb_eq. split.
  - intros [[[[Hhead | H204] | H205] | H304] | Hlength]; auto.
    + left. now destruct method.
    + destruct (Headers.get (resp_headers response) "content-length") as [length |];
        [| discriminate].
      apply String.eqb_eq in Hlength. eauto 10.
  - intros [-> | [H204 | [H205 | [H304 | (length & Hget & Hzero)]]]]; auto.
    right. rewrite Hget. now apply String.eqb_eq.
Qed.

End MoreFetcherFacts.

(** X9. The [Error] that [fetcher] throws for a response that is not [ok]
    never has a blank message: whatever the error body holds, the message
    has a character that is not white space. *)
Theorem fetcher_error_message_not_blank {World : Type} `{Platform World}
    (url : string) (options : option RequestOptions) (w : World)
    (response : Response World) (w1 : World) :
  fetch url (Fetcher.buildRequest options) w = (Fulfilled response, w1) ->
  ok response = false ->
  exists message w2,
    Fetcher.fetcher url options w = (Rejected (new_Error message), w2)
    /\ nonEmpty (trim message) = true.
Proof.
  apply fetcher_not_ok.
Qed.

(** A 404 whose JSON body has a message of spaces only: the fallback is
    used. *)
Lemma fetcher_error_message_not_blank_witness :
  let blank := "{" +:+ quoted "message" +:+ ":" +:+ quoted "   " +:+ "}" in
  exists message w2,
    @Fetcher.fetcher _ (Lab.platformWith (Lab.always 404 Testbed.jsonHeaders blank))
      "https://example.com/missing" None Testbed.quiet = (Rejected (new_Error message), w2)
    /\ nonEmpty (trim message) = true.
Proof.
  intros blank.
  apply (@fetcher_error_message_not_blank _
           (Lab.platformWith (Lab.always 404 Testbed.jsonHeaders blank))
           "https://example.com/missing" None Testbed.quiet
           (Testbed.respond 404 Testbed.jsonHeaders blank) Testbed.quiet);
    reflexivity.
Defined.

(** X10. For a response whose [ok] flag is the standard one (status within
    200-299), status 304 makes [fetcher] fail with an [Error]: the
    no-content test for 304 is only reached by a response that claims [ok]
    with that status. *)
Theorem fetcher_304_is_an_error {World : Type} `{Platform World}
    (url : string) (options : option RequestOptions) (w : World)
    (response : Response World) (w1 : World) :
  fetch url (Fetcher.buildRequest options) w = (Fulfilled response, w1) ->
  ok response = (200 <=? status response) && (status response <=? 299) ->
  status response = 304 ->
  exists message w2,
    Fetcher.fetcher url options w = (Rejected (new_Error message), w2).
Proof.
  intros Hfetch Hstandard Hstatus.
  rewrite Hstatus in Hstandard. cbn in Hstandard.
  destruct (fetcher_not_ok url options w response w1 Hfetch Hstandard) as (message & w2 & Hrun & _).
  eauto.
Qed.

Lemma fetcher_304_is_an_error_witness :
  exists message w2,
    @Fetcher.fetcher _ (Lab.platformWith (Lab.always 304 [] EmptyString))
      "https://example.com/cached" None Testbed.quiet = (Rejected (new_Error message), w2).
Proof.
  apply (@fetcher_304_is_an_error _ (Lab.platformWith (Lab.always 304 [] EmptyString))
           "https://example.com/cached" None Testbed.quiet
           (Testbed.respond 304 [] EmptyString) Testbed.quiet);
    reflexivity.
Defined.

(** X11. For an [ok] response the result is [undefined], and the body is
    not read, in each of the no-content cases: the method is HEAD, the
    status is 204, 205 or 304, or a [content-length] header is ["0"] once
    trimmed. *)
Theorem fetcher_no_content_cases {World : Type} `{Platform World}
    (url : string) (options : option RequestOptions) (w : World)
    (response : Response World) (w1 : World) :
  fetch url (Fetcher.buildRequest options) w = (Fulfilled response, w1) ->
  ok response = true ->
  (init_method (Fetcher.buildRequest options) = HEAD
   \/ status response = 204 \/ status response = 205 \/ status response = 304
   \/ exists length,
        Headers.get (resp_headers response) "content-length" = Some length
        /\ trim length = "0") ->
  Fetcher.fetcher url options w = (Fulfilled JsUndefined, w1).
Proof.
  intros Hfetch Hok Hcases. rewrite fetcher_unfold, Hfetch.
  unfold Fetcher.readResponse. rewrite Hok. cbn [negb].
  apply responseHasNoContent_iff in Hcases. now rewrite Hcases.
Qed.

(** A HEAD request answered with a JSON body, and a 200 announcing a
    [Content-Length] of [" 0 "]. *)
Lemma fetcher_no_content_cases_witness :
  Fetcher.fetcher "https://example.com"
    (Some {| method := Some HEAD; body := JsUndefined; headers := []; restOptions := [] |})
    Testbed.quiet = (Fulfilled JsUndefined, Testbed.quiet)
  /\ @Fetcher.fetcher _
       (Lab.platformWith (Lab.always 200 [("Content-Length", " 0 ")] "ignored"))
       "https://example.com/zero" None Testbed.quiet = (Fulfilled JsUndefined, Testbed.quiet).
Proof.
  split.
  - apply (fetcher_no_content_cases "https://example.com"
             (Some {| method := Some HEAD; body := JsUndefined; headers := []; restOptions := [] |})
             Testbed.quiet (Testbed.respond 200 Testbed.jsonHeaders Testbed.helloWorld)
             Testbed.quiet); [reflexivity | reflexivity |].
    left. reflexivity.
  - apply (@fetcher_no_content_cases _
             (Lab.platformWith (Lab.always 200 [("Content-Length", " 0 ")] "ignored"))
             "https://example.com/zero" None Testbed.quiet
             (Testbed.respond 200 [("Content-Length", " 0 ")] "ignored") Testbed.quiet);
      [reflexivity | reflexivity |].
    right. right. right. right. exists " 0 ". split; reflexivity.
Defined.

(** X12. Apart from the [Error] made for a response that is not [ok],
    [fetcher] fails with exactly what failed underneath, unchanged: the
    rejection of [fetch], the rejection of [response.text()], or the error
    thrown by [JSON.parse] on a JSON-flavoured body that is not blank. *)
Theorem fetcher_passes_failures_through {World : Type} `{Platform World}
    (url : string) (options : option RequestOptions) (w : World) :
  (forall error w1,
      fetch url (Fetcher.buildRequest options) w = (Rejected error, w1) ->
      Fetcher.fetcher url options w = (Rejected error, w1))
  /\ (forall response w1 error w2,
        fetch url (Fetcher.buildRequest options) w = (Fulfilled response, w1) ->
        ok response = true ->
        Fetcher.responseHasNoContent (init_method (Fetcher.buildRequest options)) response = false ->
        text response w1 = (Rejected error, w2) ->
        Fetcher.fetcher url options w = (Rejected error, w2))
  /\ (forall response w1 body w2 error,
        fetch url (Fetcher.buildRequest options) w = (Fulfilled response, w1) ->
        ok response = true ->
        Fetcher.responseHasNoContent (init_method (Fetcher.buildRequest options)) response = false ->
        Fetcher.isJsonFlavored response = true ->
        text response w1 = (Fulfilled body, w2) ->
        nonEmpty (trim body) = true ->
        JSON_parse body = Rejected error ->
        Fetcher.fetcher url options w = (Rejected error, w2)).
Proof.
  split; [| split].
  - intros error w1 Hfetch. now rewrite fetcher_unfold, Hfetch.
  - intros response w1 error w2 Hfetch Hok Hcontent Htext.
    rewrite fetcher_unfold, Hfetch. unfold Fetcher.readResponse.
    rewrite Hok, Hcontent. cbn [negb]. unfold Async.bind.
    destruct (Fetcher.isJsonFlavored response); now rewrite Htext.
  - intros response w1 body w2 error Hfetch Hok Hcontent Hjson Htext Hbody Hparse.
    rewrite fetcher_unfold, Hfetch. unfold Fetcher.readResponse.
    rewrite Hok, Hcontent, Hjson. cbn [negb]. unfold Async.bind.
    now rewrite Htext, Hbody, Hparse.
Qed.

(** No network; and a 200 that declares JSON and sends something else. *)
Lemma fetcher_passes_failures_through_witness :
  @Fetcher.fetcher _ (Lab.platformWith Lab.offline) "https://example.com" None Testbed.quiet
    = (Rejected Testbed.networkError, Testbed.quiet)
  /\ @Fetcher.fetcher _ (Lab.platformWith (Lab.always 200 Testbed.jsonHeaders "<html>"))
       "https://example.com" None Testbed.quiet
     = (Rejected Testbed.syntaxError, Testbed.quiet).
Proof.
  split.
  - apply (proj1 (@fetcher_passes_failures_through _ (Lab.platformWith Lab.offline)
                    "https://example.com" None Testbed.quiet)).
    reflexivity.
  - apply (proj2 (proj2 (@fetcher_passes_failures_through _
                           (Lab.platformWith (Lab.always 200 Testbed.jsonHeaders "<html>"))
                           "https://example.com" None Testbed.quiet))
             (Testbed.respond 200 Testbed.jsonHeaders "<html>") Testbed.quiet "<html>"
             Testbed.quiet); reflexivity.
Defined.

(** X13. An [ok] response that has content and is not JSON-flavoured (no
    [content-type], or one without "json" in it) yields its text as a
    string, verbatim: it is neither trimmed nor parsed, and an empty text
    yields the empty string, not [undefined]. *)
Theorem fetcher_returns_raw_text {World : Type} `{Platform World}
    (url : string) (options : option RequestOptions) (w : World)
    (response : Response World) (w1 : World) (body : string) (w2 : World) :
  fetch url (Fetcher.buildRequest options) w = (Fulfilled response, w1) ->
  ok response = true ->
  Fetcher.responseHasNoContent (init_method (Fetcher.buildRequest options)) response = false ->
  Fetcher.isJsonFlavored response = false ->
  text response w1 = (Fulfilled body, w2) ->
  Fetcher.fetcher url options w = (Fulfilled (JsString body), w2).
Proof.
  intros Hfetch Hok Hcontent Hjson Htext.
  rewrite fetcher_unfold, Hfetch. unfold Fetcher.readResponse.
  rewrite Hok, Hcontent, Hjson. cbn [negb]. unfold Async.bind, Async.ret.
  now rewrite Htext.
Qed.

Lemma fetcher_returns_raw_text_witness :
  @Fetcher.fetcher _ (Lab.platformWith (Lab.always 200 [("Content-Type", "text/plain")] "  "))
    "https://example.com/notes" None Testbed.quiet
  = (Fulfilled (JsString "  "), Testbed.quiet).
Proof.
  apply (@fetcher_returns_raw_text _
           (Lab.platformWith (Lab.always 200 [("Content-Type", "text/plain")] "  "))
           "https://example.com/notes" None Testbed.quiet
           (Testbed.respond 200 [("Content-Type", "text/plain")] "  ") Testbed.quiet
           "  " Testbed.quiet); reflexivity.
Defined.

(** ** More on the request *)

Section MoreRequestFacts.

Context {World : Type} `{Platform World}.

(** A name the caller used is in the [Headers] object made of the caller's
    pairs, under its lower-cased form. *)
Lemma Headers_make_present (init : list (string * string)) (name value : string) :
  In (name, value) init ->
  forall h : gmap string string,
    is_Some (fold_left (fun h kv => Headers.append h (fst kv) (snd kv)) init h
               !! toLowerCase name).
Proof.
  assert (Hkeep : forall (rest : list (string * string)) (key : string) (h : gmap string string),
             is_Some (h !! key) ->
             is_Some (fold_left (fun h kv => Headers.append h (fst kv) (snd kv)) rest h !! key)).
  { induction rest as [| [n v] rest IH]; intros key h Hsome; simpl; [exact Hsome |].
    apply IH. unfold Headers.append. simpl.
    destruct (decide (toLowerCase n = key)) as [<- | Hne].
    - destruct (h !! toLowerCase n); rewrite lookup_insert_eq; eauto.
    - destruct (h !! toLowerCase n); now rewrite lookup_insert_ne. }
  induction init as [| [n v] init IH]; intros Hin h; simpl; [contradiction |].
  destruct Hin as [[= -> ->] | Hin].
  - apply Hkeep. unfold Headers.append. simpl.
    destruct (h !! toLowerCase name); rewrite lookup_insert_eq; eauto.
  - now apply IH.
Qed.

End MoreRequestFacts.

(** X14. Whatever the body, building the request changes nothing but the
    body and the [content-type] header: the method is the caller's (GET when
    none is given), the pass-through options are the caller's, and every
    header other than [content-type] is as [new Headers(headers)] has it. A
    body that is neither nullish, nor a [FormData], nor a plain mapping or
    sequence (a string, say) is handed over as it is with the caller's
    headers untouched, and a nullish body means no body at all. *)
Theorem buildRequest_only_touches_content_type {World : Type} `{Platform World}
    (o : RequestOptions) :
  init_method (Fetcher.buildRequest (Some o)) = default GET (method o)
  /\ init_rest (Fetcher.buildRequest (Some o)) = restOptions o
  /\ (forall name,
        toLowerCase name <> "content-type" ->
        Headers.get (init_headers (Fetcher.buildRequest (Some o))) name
        = Headers.get (Headers.make (headers o)) name)
  /\ (Fetcher.instanceofFormData (body o) = false ->
      Fetcher.shouldSerializeToJson (body o) = false ->
      init_headers (Fetcher.buildRequest (Some o)) = Headers.make (headers o)
      /\ init_body (Fetcher.buildRequest (Some o))
         = if isNullish (body o) then None else Some (body o)).
Proof.
  unfold Fetcher.buildRequest. change (default noOptions (Some o)) with o.
  destruct (isNullish (body o)) eqn:Hnull; cbn [negb].
  { repeat split; intros; reflexivity. }
  destruct (Fetcher.instanceofFormData (body o)) eqn:Hform.
  { repeat split; try discriminate.
    intros name Hname. cbn [init_headers]. unfold Headers.get, Headers.delete.
    change (toLowerCase "Content-Type") with "content-type". now rewrite lookup_delete_ne. }
  destruct (Fetcher.shouldSerializeToJson (body o)) eqn:Hplain.
  { repeat split; try discriminate.
    intros name Hname. cbn [init_headers].
    destruct (negb (Headers.has (Headers.make (headers o)) "Content-Type")); [| reflexivity].
    unfold Headers.get, Headers.set.
    change (toLowerCase "Content-Type") with "content-type". now rewrite lookup_insert_ne. }
  repeat split; intros; reflexivity.
Qed.

(** X15. A [content-type] given by the caller under any letter case
    ([CONTENT-TYPE], say) counts: with a plain mapping or sequence as body
    the request still carries the JSON text, and its headers are exactly the
    caller's, no [application/json] being put in their place. *)
Theorem buildRequest_keeps_caller_content_type {World : Type} `{Platform World}
    (o : RequestOptions) (name value : string) :
  Fetcher.shouldSerializeToJson (body o) = true ->
  In (name, value) (headers o) ->
  toLowerCase name = "content-type" ->
  init_headers (Fetcher.buildRequest (Some o)) = Headers.make (headers o)
  /\ init_body (Fetcher.buildRequest (Some o)) = Some (JsString (JSON_stringify (body o)))
  /\ is_Some (Headers.get (init_headers (Fetcher.buildRequest (Some o))) "Content-Type").
Proof.
  intros Hplain Hin Hname.
  destruct (serializable_not_FormData (body o) Hplain) as [Hsome Hform].
  assert (Hpresent : is_Some (Headers.make (headers o) !! "content-type")).
  { rewrite <- Hname. apply (Headers_make_present (headers o) name value Hin). }
  assert (Hhas : Headers.has (Headers.make (headers o)) "Content-Type" = true).
  { unfold Headers.has. change (toLowerCase "Content-Type") with "content-type".
    now apply bool_decide_eq_true. }
  unfold Fetcher.buildRequest. change (default noOptions (Some o)) with o.
  rewrite Hsome, Hform, Hplain, Hhas.
  cbn [negb init_headers init_body]. repeat split. exact Hpresent.
Qed.

Lemma buildRequest_keeps_caller_content_type_witness :
  let o := {| method := Some PUT;
              body := JsArray [JsNumber 1; JsNumber 2];
              headers := [("CONTENT-TYPE", "application/vnd.api+json")];
              restOptions := [] |} in
  init_headers (Fetcher.buildRequest (Some o)) = Headers.make (headers o)
  /\ init_body (Fetcher.buildRequest (Some o)) = Some (JsString "[1,2]")
  /\ is_Some (Headers.get (init_headers (Fetcher.buildRequest (Some o))) "Content-Type").
Proof.
  intros o.
  destruct (buildRequest_keeps_caller_content_type o "CONTENT-TYPE" "application/vnd.api+json")
    as (Hheaders & Hbody & Hpresent).
  - reflexivity.
  - left. reflexivity.
  - reflexivity.
  - split; [exact Hheaders |]. split; [| exact Hpresent].
    rewrite Hbody. vm_compute. reflexivity.
Defined.

(** ** The verb helpers *)

(** X16. [get] and [del] hand [fetch] a request with their own method, no
    body, and exactly the caller's headers and pass-through options, and
    read the response as a GET, respectively DELETE, response. [post],
    [put] and [patch] treat the body and the headers in the same way: their
    requests differ in the method only. *)
Theorem verbs_fix_the_method {World : Type} `{Platform World}
    (url : string) (body : JsValue) (options : option Verbs.VerbOptions) :
  let callerHeaders := Headers.make (headers (Verbs.withMethod GET JsUndefined options)) in
  let rest := restOptions (Verbs.withMethod GET JsUndefined options) in
  let posted := Fetcher.buildRequest (Some (Verbs.withMethod POST body options)) in
  (forall w,
      Verbs.get url options w =
      match fetch url {| init_method := GET; init_headers := callerHeaders;
                         init_body := None; init_rest := rest |} w with
      | (Fulfilled response, w1) => Fetcher.readResponse GET response w1
      | (Rejected error, w1) => (Rejected error, w1)
      end)
  /\ (forall w,
        Verbs.del url options w =
        match fetch url {| init_method := DELETE; init_headers := callerHeaders;
                           init_body := None; init_rest := rest |} w with
        | (Fulfilled response, w1) => Fetcher.readResponse DELETE response w1
        | (Rejected error, w1) => (Rejected error, w1)
        end)
  /\ init_method posted = POST
  /\ Fetcher.buildRequest (Some (Verbs.withMethod PUT body options))
     = {| init_method := PUT; init_headers := init_headers posted;
          init_body := init_body posted; init_rest := init_rest posted |}
  /\ Fetcher.buildRequest (Some (Verbs.withMethod PATCH body options))
     = {| init_method := PATCH; init_headers := init_headers posted;
          init_body := init_body posted; init_rest := init_rest posted |}.
Proof.
  intros callerHeaders rest posted. split; [| split].
  - intros w. unfold Verbs.get. now rewrite fetcher_unfold.
  - intros w. unfold Verbs.del. now rewrite fetcher_unfold.
  - subst posted. unfold Fetcher.buildRequest.
    change (default noOptions (Some (Verbs.withMethod ?m body options)))
      with (Verbs.withMethod m body options).
    cbn [Verbs.withMethod Http.method Http.body Http.headers Http.restOptions default].
    destruct (negb (isNullish body)); [| repeat split].
    destruct (Fetcher.instanceofFormData body); [repeat split |].
    destruct (Fetcher.shouldSerializeToJson body); repeat split.
Qed.

(** ** tryCatch over a URL *)

(** X17. [tryCatch] on a string fetches it, and every failure of the
    fetch becomes the second component of the tuple: a rejection of [fetch]
    itself as it is, and a response that is not [ok] as an [Error] whose
    message is not blank. In neither case is the string handed back as the
    data. *)
Theorem tryCatch_url_failures_become_data {World : Type} `{Platform World}
    (url : string) (requestOptions : option RequestOptions) (w : World) :
  (forall error w1,
      fetch url (Fetcher.buildRequest requestOptions) w = (Rejected error, w1) ->
      TryCatch.tryCatch (TryCatch.InputValue (JsString url)) requestOptions w
      = (Fulfilled (JsNull, error), w1))
  /\ (forall response w1,
        fetch url (Fetcher.buildRequest requestOptions) w = (Fulfilled response, w1) ->
        ok response = false ->
        exists message w2,
          TryCatch.tryCatch (TryCatch.InputValue (JsString url)) requestOptions w
          = (Fulfilled (JsNull, new_Error message), w2)
          /\ nonEmpty (trim message) = true).
Proof.
  split.
  - intros error w1 Hfetch.
    unfold TryCatch.tryCatch, Async.catch, Async.bind, Async.ret. cbn [TryCatch.resolveInput].
    now rewrite fetcher_unfold, Hfetch.
  - intros response w1 Hfetch Hok.
    destruct (fetcher_not_ok url requestOptions w response w1 Hfetch Hok)
      as (message & w2 & Hrun & Hmessage).
    exists message, w2. split; [| exact Hmessage].
    unfold TryCatch.tryCatch, Async.catch, Async.bind, Async.ret. cbn [TryCatch.resolveInput].
    now rewrite Hrun.
Qed.

Lemma tryCatch_url_failures_become_data_witness :
  TryCatch.tryCatch (TryCatch.InputValue (JsString "hello")) None Testbed.quiet
    = (Fulfilled (JsNull, Testbed.networkError), Testbed.quiet)
  /\ exists message w2,
       TryCatch.tryCatch (TryCatch.InputValue (JsString "https://example.com/error")) None
         Testbed.quiet = (Fulfilled (JsNull, new_Error message), w2)
       /\ nonEmpty (trim message) = true.
Proof.
  split.
  - apply (proj1 (tryCatch_url_failures_become_data "hello" None Testbed.quiet)).
    reflexivity.
  - apply (proj2 (tryCatch_url_failures_become_data "https://example.com/error" None
                    Testbed.quiet)
             (Testbed.respond 500 Testbed.jsonHeaders Testbed.messageBoom) Testbed.quiet);
      reflexivity.
Defined.

(** ** retry over a URL *)

(** A target that fails with one and the same error at every invocation,
    each invocation being counted by [sent], under a fixed delay, the
    default predicate and a signal that is never aborted: the loop fails
    with that error after one counted invocation per remaining attempt. *)
Lemma retryLoop_counting {World : Type} `{Platform World}
    (target : Retry.RetryTarget World) (requestOptions : option RequestOptions)
    (attempts d : Z) (signal : option (AbortSignal World))
    (sent : World -> Z) (failure : JsValue) :
  (forall w0, exists w1,
      Retry.resolveTarget target requestOptions w0 = (Rejected failure, w1)
      /\ sent w1 = sent w0 + 1) ->
  (forall ms sg w0, sent (timer_or_abort ms sg w0) = sent w0) ->
  (forall w0, Retry.signalAborted signal w0 = false) ->
  forall fuel attempt lastError r,
    0 <= attempt < attempts ->
    (Z.to_nat (attempts - attempt) < fuel)%nat ->
    exists r',
      Retry.retryLoop target requestOptions attempts (Retry.DelayNumber d) signal
        (fun _ _ => true) fuel attempt lastError r = Some (Rejected failure, r')
      /\ sent (Retry.world r') = sent (Retry.world r) + (attempts - attempt)
      /\ Z.of_nat (Retry.invocations (Retry.trace r'))
         = Z.of_nat (Retry.invocations (Retry.trace r)) + (attempts - attempt).
Proof.
  intros Hfails Htimer Hquiet.
  induction fuel as [| fuel IH]; intros attempt lastError r Hrange Hfuel; [lia |].
  simpl. destruct (Z.ltb_spec attempt attempts) as [_ | Hge]; [| lia].
  unfold Retry.invoke.
  destruct (Hfails (Retry.world r)) as (w1 & Hcall & Hsent). rewrite Hcall. simpl.
  rewrite Hquiet, andb_true_r.
  destruct (Z.ltb_spec (attempt + 1) attempts) as [Hmore | Hlast]; simpl.
  - rewrite (await_wait_not_aborted (Z.max d 0) signal _ Hquiet).
    destruct (IH (attempt + 1) failure
                {| Retry.world := timer_or_abort (Z.max d 0) signal w1;
                   Retry.trace := (Retry.trace r ++ [Retry.Invoked (Rejected failure)])
                                  ++ [Retry.Waited (Z.max d 0) (Fulfilled tt)] |})
      as (r' & Hrun & Hcount & Hinv); [lia | lia |].
    exists r'. split; [exact Hrun |]. simpl in Hcount, Hinv.
    rewrite Htimer in Hcount. rewrite !invocations_app in Hinv.
    change (Retry.invocations [Retry.Invoked (Rejected failure)]) with 1%nat in Hinv.
    change (Retry.invocations [Retry.Waited (Z.max d 0) (Fulfilled tt)]) with 0%nat in Hinv.
    split; lia.
  - eexists. split; [reflexivity |]. simpl. rewrite invocations_app.
    change (Retry.invocations [Retry.Invoked (Rejected failure)]) with 1%nat.
    split; lia.
Qed.

(** X18. HTTP failures are retried like any other failure. Let [sent]
    count the requests the transport receives, and let every response for
    the URL be a failure of status [status] whose body is not JSON. With the
    default predicate, a fixed delay, [attempts = N >= 1] and no
    cancellation, [retry] on that URL sends the request exactly [N] times
    ([sent] grows by [N]) and fails with the [Error] that [fetcher] makes of
    the response, [HTTP error! Status: <status>]. *)
Theorem retry_retries_http_errors {World : Type} `{Platform World}
    (sent : World -> Z) (url : string) (requestOptions : option RequestOptions)
    (d : Z) (signal : option (AbortSignal World)) (status N : Z) (w : World) :
  1 <= N ->
  (forall w0, exists response w1 decodeError,
      fetch url (Fetcher.buildRequest requestOptions) w0 = (Fulfilled response, w1)
      /\ sent w1 = sent w0 + 1
      /\ ok response = false
      /\ Http.status response = status
      /\ json response w1 = (Rejected decodeError, w1)) ->
  (forall ms sg w0, sent (timer_or_abort ms sg w0) = sent w0) ->
  (forall w0, Retry.signalAborted signal w0 = false) ->
  exists r,
    Retry.retry (Retry.TargetValue (JsString url))
      {| Retry.attempts := Some N; Retry.delay := Some (Retry.DelayNumber d);
         Retry.signal := signal; Retry.retryable := None |}
      requestOptions w
      = Some (Rejected (new_Error (Fetcher.httpErrorMessage status)), r)
    /\ Z.of_nat (Retry.invocations (Retry.trace r)) = N
    /\ sent (Retry.world r) = sent w + N.
Proof.
  intros HN Hserver Htimer Hquiet.
  unfold Retry.retry, Retry.attemptsOf, Retry.delayOf, Retry.retryableOf.
  cbn [Retry.attempts Retry.delay Retry.signal Retry.retryable default from_option id].
  destruct (Z.ltb_spec N 1) as [Hbad | _]; [lia |].
  destruct (retryLoop_counting (Retry.TargetValue (JsString url)) requestOptions N d signal
              sent (new_Error (Fetcher.httpErrorMessage status)))
    with (fuel := S (Z.to_nat N)) (attempt := 0) (lastError := JsUndefined) (r := Retry.start w)
    as (r & Hrun & Hcount & Hinv); try assumption; try lia.
  - intros w0. cbn [Retry.resolveTarget].
    destruct (Hserver w0) as (response & w1 & decodeError & Hfetch & Hsent & Hok & Hstatus & Hjson).
    exists w1. split; [| exact Hsent].
    rewrite fetcher_unfold, Hfetch. unfold Fetcher.readResponse. rewrite Hok. cbn [negb].
    unfold Async.bind, Async.throw. rewrite errorMessageOf_spec, Hjson, Hstatus. reflexivity.
  - exists r. split; [exact Hrun |].
    cbn [Retry.start Retry.world Retry.trace] in Hcount, Hinv.
    rewrite invocations_nil in Hinv. split; lia.
Qed.

Lemma retry_retries_http_errors_witness :
  exists r,
    @Retry.retry _ (Lab.platformWith (Lab.counting 404 [] "Not Found"))
      (Retry.TargetValue (JsString "https://example.com/missing"))
      {| Retry.attempts := Some 3; Retry.delay := Some (Retry.DelayNumber 0);
         Retry.signal := None; Retry.retryable := None |}
      None Testbed.quiet
      = Some (Rejected (new_Error (Fetcher.httpErrorMessage 404)), r)
    /\ Z.of_nat (Retry.invocations (Retry.trace r)) = 3
    /\ Z.of_nat (Testbed.calls (Retry.world r)) = Z.of_nat (Testbed.calls Testbed.quiet) + 3.
Proof.
  apply (@retry_retries_http_errors _ (Lab.platformWith (Lab.counting 404 [] "Not Found"))
           (fun w0 => Z.of_nat (Testbed.calls w0))
           "https://example.com/missing" None 0 None 404 3 Testbed.quiet).
  - lia.
  - intros w0.
    exists (Testbed.respond 404 [] "Not Found"), (Testbed.called w0), Testbed.syntaxError.
    split; [reflexivity |]. split; [cbn; lia |]. repeat split.
  - intros ms sg w0. reflexivity.
  - intros w0. reflexivity.
Defined.

(** ** The default delays of a call *)

(** X19. When no [delay] is given and [attempts] is at most 24, the
    duration asked of the timer for the [i]-th delay of a call (counting
    from 1) lies between [170 * 2^i] and [230 * 2^i] milliseconds, that is
    [200 * 2^i] give or take 15% (340 to 460 for the first, 680 to 920 for
    the second, and so on), and is below 2^31, whatever the target and the
    other options. *)
Theorem retry_default_delays_bounded {World : Type} `{Platform World}
    (target : Retry.RetryTarget World) (retryOptions : Retry.RetryOptions World)
    (requestOptions : option RequestOptions) (w : World) :
  1 <= Retry.attemptsOf retryOptions <= 24 ->
  Retry.delay retryOptions = None ->
  (forall w0, (0 <= fst (Math_random w0) /\ fst (Math_random w0) < 1)%Q) ->
  exists out r,
    Retry.retry target retryOptions requestOptions w = Some (out, r)
    /\ forall (i : nat) ms,
         Observed.waitDurations (Retry.trace r) !! i = Some ms ->
         170 * 2 ^ (Z.of_nat i + 1) <= ms <= 230 * 2 ^ (Z.of_nat i + 1)
         /\ ms < 2 ^ 31.
Proof.
  intros [Hvalid Hsmall] Hdelay Hrandom.
  destruct (retry_cases target retryOptions requestOptions w
              (fun attempt events _ =>
                 forall (i : nat) ms,
                   Observed.waitDurations events !! i = Some ms ->
                   170 * 2 ^ (attempt + Z.of_nat i + 1) <= ms
                     <= 230 * 2 ^ (attempt + Z.of_nat i + 1)
                   /\ attempt + Z.of_nat i + 1 < Retry.attemptsOf retryOptions))
    as (out & r & Hrun & Hbounds); try exact Hvalid;
    unfold Retry.delayOf; rewrite ?Hdelay; cbn [default from_option id Observed.waitDurations].
  - intros attempt value _ i ms [=].
  - intros attempt error w1 _ _ i ms [=].
  - intros attempt error _ _ i ms [=].
  - intros attempt error r1 w3 Hpos Hmore _ _ [| i] ms; [| intros [=]].
    intros [= <-]. cbn [Retry.delayFor].
    destruct (Hrandom (Retry.world r1)) as [Hlow Hhigh].
    pose proof (defaultDelay_between (attempt + 1) (Retry.world r1) ltac:(lia) Hlow Hhigh) as Hd.
    destruct (Retry.defaultDelay (attempt + 1) (Retry.world r1)) as [ms w']. cbn in *.
    change (Z.of_nat 0) with 0. rewrite Z.add_0_r. split; [exact Hd | lia].
  - intros attempt error r1 rest out Hpos Hmore _ IH [| i] ms.
    + intros [= <-]. cbn [Retry.delayFor].
      destruct (Hrandom (Retry.world r1)) as [Hlow Hhigh].
      pose proof (defaultDelay_between (attempt + 1) (Retry.world r1) ltac:(lia) Hlow Hhigh) as Hd.
      destruct (Retry.defaultDelay (attempt + 1) (Retry.world r1)) as [ms w']. cbn in *.
      change (Z.of_nat 0) with 0. rewrite Z.add_0_r. split; [exact Hd | lia].
    + intros Hlookup. cbn in Hlookup.
      replace (attempt + Z.of_nat (S i) + 1) with (attempt + 1 + Z.of_nat i + 1) by lia.
      now apply IH.
  - exists out, r. split; [exact Hrun |].
    intros i ms Hlookup. apply Hbounds in Hlookup as [Hms Hindex].
    replace (0 + Z.of_nat i + 1) with (Z.of_nat i + 1) in * by lia.
    split; [exact Hms |].
    assert (2 ^ (Z.of_nat i + 1) <= 2 ^ 23) by (apply Z.pow_le_mono_r; lia).
    change (2 ^ 23) with 8388608 in *. change (2 ^ 31) with 2147483648. lia.
Qed.

Lemma retry_default_delays_bounded_witness :
  exists out r,
    @Retry.retry _ (Lab.withRandom (1 # 2)) (Retry.TargetFunction Testbed.alwaysFails)
      Retry.noRetryOptions None Testbed.quiet = Some (out, r)
    /\ forall (i : nat) ms,
         Observed.waitDurations (Retry.trace r) !! i = Some ms ->
         170 * 2 ^ (Z.of_nat i + 1) <= ms <= 230 * 2 ^ (Z.of_nat i + 1)
         /\ ms < 2 ^ 31.
Proof.
  apply (@retry_default_delays_bounded _ (Lab.withRandom (1 # 2))
           (Retry.TargetFunction Testbed.alwaysFails) Retry.noRetryOptions None Testbed.quiet).
  - vm_compute. split; discriminate.
  - reflexivity.
  - intros w0. split; [vm_compute; discriminate | reflexivity].
Defined.
